(** * Cloud CDN signed URLs: [sign_url] of cdn/snippets.py

    A shallow embedding of [sign_url] and of the Python 3 library calls it
    makes ([str.strip], [urllib.parse.urlsplit] and [parse_qs], [datetime]
    subtraction and [timedelta.total_seconds], [base64.urlsafe_b64decode] and
    [urlsafe_b64encode], [hmac.new(..., hashlib.sha1).digest()], [str.encode],
    [str.format] and [print]), followed by the properties of the signer.

    Conventions.  A Python [str] is the list of its code points, a [bytes]
    object the list of its bytes, both as [Z].  A [float] is the binary64
    value it holds, a mantissa and an exponent; the two operations used on
    it round to nearest, ties to even, as IEEE 754 has it.  A call that can
    raise returns a [result]; [sign_url] itself runs in a process [World]
    whose standard output it writes to.  The library is modelled as CPython
    3.11 behaves; what rests on its Unicode and IP address tables (NFKC
    normalisation, [ipaddress.ip_address], [unquote]) is a parameter. *)

From Stdlib Require Import ZArith List Bool Lia String Ascii.
From Stdlib Require Import DecimalString.
Import ListNotations.
Local Open Scope Z_scope.

(** ** Python values *)

Definition str := list Z.
Definition bytes := list Z.

(** An ASCII literal of the source as a [str]. *)
Definition lit (s : string) : str :=
  map (fun a => Z.of_N (N_of_ascii a)) (list_ascii_of_string s).

(** A code point written as a character literal. *)
Definition chr (a : ascii) : Z := Z.of_N (N_of_ascii a).

(** The exceptions the modelled calls raise.  [binascii_Error] is
    [binascii.Error], a subclass of [ValueError]. *)
Inductive exn : Type :=
| ValueError (msg : string)
| binascii_Error (msg : string)
| UnicodeEncodeError (codec : string) (position : nat) (reason : string)
| TypeError (msg : string).

Inductive result (A : Type) : Type :=
| Ok (a : A)
| Raise (e : exn).
Arguments Ok {A} a.
Arguments Raise {A} e.

Definition bind {A B} (r : result A) (k : A -> result B) : result B :=
  match r with
  | Ok a => k a
  | Raise e => Raise e
  end.

Declare Scope py_scope.
Delimit Scope py_scope with py.
Notation "x <- r ;; k" := (bind r (fun x => k))
  (at level 61, r at next level, right associativity) : py_scope.
Notation "' p <- r ;; k" := (bind r (fun x => match x with p => k end))
  (at level 61, p pattern, r at next level, right associativity) : py_scope.

Definition is_ok {A} (r : result A) : bool :=
  match r with Ok _ => true | Raise _ => false end.

(** Every byte of a [bytes] object is below 256. *)
Definition is_byte (b : Z) : Prop := 0 <= b < 256.
Definition wf_bytes (b : bytes) : Prop := Forall is_byte b.

(** ** [str] methods *)

Module Str.

Fixpoint dropwhile (p : Z -> bool) (s : str) : str :=
  match s with
  | [] => []
  | c :: s' => if p c then dropwhile p s' else s
  end.

Definition lstrip_with (p : Z -> bool) (s : str) : str := dropwhile p s.
Definition rstrip_with (p : Z -> bool) (s : str) : str :=
  rev (dropwhile p (rev s)).

(** [Py_UNICODE_ISSPACE]: the code points for which [str.isspace] holds. *)
Definition isspace (c : Z) : bool :=
  ((9 <=? c) && (c <=? 13)) || ((28 <=? c) && (c <=? 32))
  || (c =? 133) || (c =? 160) || (c =? 5760)
  || ((8192 <=? c) && (c <=? 8202))
  || (c =? 8232) || (c =? 8233) || (c =? 8239) || (c =? 8287)
  || (c =? 12288).

(** [s.strip()] *)
Definition strip (s : str) : str := rstrip_with isspace (lstrip_with isspace s).

(** [c in s] *)
Definition contains (c : Z) (s : str) : bool := existsb (Z.eqb c) s.

(** The text before and after the first [c], when there is one:
    [s.find(c)], [s.partition(c)] and [s.split(c, 1)] all rest on it. *)
Fixpoint break_at (c : Z) (s : str) : option (str * str) :=
  match s with
  | [] => None
  | x :: s' =>
      if x =? c then Some ([], s')
      else match break_at c s' with
           | Some (pre, post) => Some (x :: pre, post)
           | None => None
           end
  end.

(** [s.split(c)] for a one-character separator. *)
Fixpoint split (c : Z) (s : str) : list str :=
  match s with
  | [] => [[]]
  | x :: s' =>
      if x =? c then [] :: split c s'
      else match split c s' with
           | piece :: pieces => (x :: piece) :: pieces
           | [] => [[x]]
           end
  end.

(** [s.replace(c, "")] *)
Definition remove (c : Z) (s : str) : str :=
  filter (fun x => negb (x =? c)) s.

(** [s.replace(c, d)] for single characters. *)
Definition replace (c d : Z) (s : str) : str :=
  map (fun x => if x =? c then d else x) s.

(** [s.rpartition(c)[2]]: the text after the last [c], all of [s] without one. *)
Fixpoint after_last (c : Z) (s : str) : str :=
  match s with
  | [] => []
  | x :: s' =>
      if contains c s' then after_last c s'
      else if x =? c then s' else s
  end.

Fixpoint eqb (a b : str) : bool :=
  match a, b with
  | [], [] => true
  | x :: a', y :: b' => (x =? y) && eqb a' b'
  | _, _ => false
  end.

(** [s.startswith(p)] *)
Fixpoint startswith (p s : str) : bool :=
  match p, s with
  | [], _ => true
  | x :: p', y :: s' => (x =? y) && startswith p' s'
  | _ :: _, [] => false
  end.

(** [c.isascii()], and ASCII classes. *)
Definition isascii (c : Z) : bool := (0 <=? c) && (c <=? 127).
Definition is_upper (c : Z) : bool := (65 <=? c) && (c <=? 90).
Definition is_lower (c : Z) : bool := (97 <=? c) && (c <=? 122).
Definition is_digit (c : Z) : bool := (48 <=? c) && (c <=? 57).
Definition is_ascii_alpha (c : Z) : bool := is_upper c || is_lower c.
Definition is_hex (c : Z) : bool :=
  is_digit c || ((65 <=? c) && (c <=? 70)) || ((97 <=? c) && (c <=? 102)).

(** [s.lower()] on ASCII text. *)
Definition lower (s : str) : str :=
  map (fun c => if is_upper c then c + 32 else c) s.

(** [str(n)], which is also what [format] gives an [int] with no format
    specification. *)
Definition of_int (n : Z) : str := lit (NilZero.string_of_int (Z.to_int n)).

End Str.

(** ** [urllib.parse]: [urlsplit] and [parse_qs] *)

Module Urllib.
Import Str.
Local Open Scope py_scope.

Record SplitResult : Type := {
  scheme : str;
  netloc : str;
  path : str;
  query : str;
  fragment : str
}.

(** What [ipaddress.ip_address] makes of a host name. *)
Inductive ip_kind : Type := IPv4Address | IPv6Address | NotAnAddress.

Section Library.
(** Three library functions that rest on tables outside the repository
    are parameters: [unicodedata.normalize('NFKC', s)], the class of
    [ipaddress.ip_address(h)], and [urllib.parse.unquote(s)] (UTF-8,
    errors replaced; it never raises). *)
Variable NFKC : str -> str.
Variable ip_address : str -> ip_kind.
Variable unquote : str -> str.

(** [_WHATWG_C0_CONTROL_OR_SPACE] *)
Definition c0_control_or_space (c : Z) : bool := (0 <=? c) && (c <=? 32).

(** [c in scheme_chars] *)
Definition scheme_char (c : Z) : bool :=
  is_ascii_alpha c || is_digit c
  || (c =? chr "+") || (c =? chr "-") || (c =? chr ".").

(** The scheme test of [urlsplit]: [i = url.find(':')], [i > 0], a first
    character that is an ASCII letter, and only [scheme_chars] before
    the colon.  Returns the scheme and the rest of the URL. *)
Definition split_scheme (url : str) : str * str :=
  match break_at (chr ":") url with
  | Some (c :: pre, post) =>
      if isascii c && is_ascii_alpha c && forallb scheme_char (c :: pre)
      then (lower (c :: pre), post)
      else ([], url)
  | _ => ([], url)
  end.

Definition is_delim (c : Z) : bool :=
  (c =? chr "/") || (c =? chr "?") || (c =? chr "#").

Fixpoint span_netloc (s : str) : str * str :=
  match s with
  | [] => ([], [])
  | c :: s' =>
      if is_delim c then ([], s)
      else let (n, r) := span_netloc s' in (c :: n, r)
  end.

(** [_splitnetloc(url, 2)]: [url[2:delim]] and [url[delim:]], [delim]
    the first of '/', '?', '#' from position 2 on. *)
Definition _splitnetloc (url : str) : str * str := span_netloc (skipn 2 url).

(** [re.match(r"\Av[a-fA-F0-9]+\..+\Z", hostname)] *)
Definition ipvfuture_match (hostname : str) : bool :=
  match hostname with
  | v :: rest =>
      (v =? chr "v")
      && match dropwhile is_hex rest with
         | dot :: tail =>
             (dot =? chr ".")
             && negb (Nat.eqb (List.length (dropwhile is_hex rest)) (List.length rest))
             && negb (Nat.eqb (List.length tail) 0)
             && negb (contains 10 tail)
         | [] => false
         end
  | [] => false
  end.

Definition _check_bracketed_host (hostname : str) : result unit :=
  if startswith (lit "v") hostname then
    if ipvfuture_match hostname then Ok tt
    else Raise (ValueError "IPvFuture address is invalid")
  else
    match ip_address hostname with
    | IPv6Address => Ok tt
    | IPv4Address => Raise (ValueError "An IPv4 address cannot be in brackets")
    | NotAnAddress =>
        Raise (ValueError "does not appear to be an IPv4 or IPv6 address")
    end.

Definition _check_bracketed_netloc (netloc : str) : result unit :=
  let hostname_and_port := after_last (chr "@") netloc in
  match break_at (chr "[") hostname_and_port with
  | Some (before_bracket, bracketed) =>
      match before_bracket with
      | _ :: _ => Raise (ValueError "Invalid IPv6 URL")
      | [] =>
          let (hostname, port) :=
            match break_at (chr "]") bracketed with
            | Some hp => hp
            | None => (bracketed, [])
            end in
          match port with
          | c :: _ =>
              if c =? chr ":" then _check_bracketed_host hostname
              else Raise (ValueError "Invalid IPv6 URL")
          | [] => _check_bracketed_host hostname
          end
      end
  | None =>
      let hostname :=
        match break_at (chr ":") hostname_and_port with
        | Some (h, _) => h
        | None => hostname_and_port
        end in
      _check_bracketed_host hostname
  end.

Definition _checknetloc (netloc : str) : result unit :=
  match netloc with
  | [] => Ok tt
  | _ =>
      if forallb isascii netloc then Ok tt
      else
        let n := remove (chr "?") (remove (chr "#")
                   (remove (chr ":") (remove (chr "@") netloc))) in
        let netloc2 := NFKC n in
        if Str.eqb n netloc2 then Ok tt
        else if existsb (fun c => contains c netloc2) (lit "/?#@:")
        then Raise (ValueError
               "netloc contains invalid characters under NFKC normalization")
        else Ok tt
  end.

(** [urlsplit(url)], with the default [scheme=''] and
    [allow_fragments=True]. *)
Definition urlsplit (url : str) : result SplitResult :=
  let url := lstrip_with c0_control_or_space url in
  let url := remove 10 (remove 13 (remove 9 url)) in
  let '(scheme, url) := split_scheme url in
  '(netloc, url) <-
    (if startswith (lit "//") url then
       let '(netloc, rest) := _splitnetloc url in
       let open_br := contains (chr "[") netloc in
       let close_br := contains (chr "]") netloc in
       if (open_br && negb close_br) || (close_br && negb open_br)
       then Raise (ValueError "Invalid IPv6 URL")
       else
         _ <- (if open_br && close_br then _check_bracketed_netloc netloc
               else Ok tt) ;;
         Ok (netloc, rest)
     else Ok ([], url)) ;;
  let '(url, fragment) :=
    match break_at (chr "#") url with
    | Some uf => uf
    | None => (url, [])
    end in
  let '(url, query) :=
    match break_at (chr "?") url with
    | Some uq => uq
    | None => (url, [])
    end in
  _ <- _checknetloc netloc ;;
  Ok {| scheme := scheme; netloc := netloc; path := url;
        query := query; fragment := fragment |}.

(** One field of [parse_qsl]'s loop, with [strict_parsing=False]: the
    pairs it appends to [r] (none or one). *)
Definition parse_field (keep_blank_values : bool) (name_value : str)
  : list (str * str) :=
  match name_value with
  | [] => []
  | _ =>
      let nv :=
        match break_at (chr "=") name_value with
        | Some (n, v) => Some (n, v)
        | None => if keep_blank_values then Some (name_value, []) else None
        end in
      match nv with
      | Some (n, v) =>
          if negb (Nat.eqb (List.length v) 0) || keep_blank_values
          then [(unquote (replace (chr "+") (chr " ") n),
                 unquote (replace (chr "+") (chr " ") v))]
          else []
      | None => []
      end
  end.

(** [parse_qsl(qs, keep_blank_values)], separator '&'. *)
Definition parse_qsl (qs : str) (keep_blank_values : bool)
  : list (str * str) :=
  let query_args := match qs with [] => [] | _ => split (chr "&") qs end in
  flat_map (parse_field keep_blank_values) query_args.

(** A [dict] from names to lists of values, in insertion order. *)
Definition dict := list (str * list str).

Fixpoint dict_add (d : dict) (name value : str) : dict :=
  match d with
  | [] => [(name, [value])]
  | (k, vs) :: d' =>
      if Str.eqb k name then (k, vs ++ [value]) :: d'
      else (k, vs) :: dict_add d' name value
  end.

(** [parse_qs(qs, keep_blank_values=...)] *)
Definition parse_qs (qs : str) (keep_blank_values : bool) : dict :=
  fold_left (fun d nv => dict_add d (fst nv) (snd nv))
            (parse_qsl qs keep_blank_values) [].

(** The truth value of a [dict]: it has a key. *)
Definition truthy (d : dict) : bool :=
  match d with [] => false | _ :: _ => true end.

End Library.
End Urllib.

(** ** [datetime]: naive datetimes, their difference, [total_seconds] *)

Module Datetime.
Local Open Scope py_scope.

(** A [timedelta], normalised as the constructor leaves it:
    [0 <= seconds < 86400] and [0 <= microseconds < 1000000]. *)
Record timedelta : Type := {
  days : Z;
  seconds : Z;
  microseconds : Z
}.

(** A [datetime].  [utcoffset] is what [utcoffset()] returns, in
    microseconds: [None] for a naive datetime. *)
Record datetime : Type := {
  year : Z;
  month : Z;
  day : Z;
  hour : Z;
  minute : Z;
  second : Z;
  microsecond : Z;
  utcoffset : option Z
}.

Definition _is_leap (y : Z) : bool :=
  (y mod 4 =? 0) && (negb (y mod 100 =? 0) || (y mod 400 =? 0)).

Definition _days_before_year (year : Z) : Z :=
  let y := year - 1 in
  y * 365 + y / 4 - y / 100 + y / 400.

Definition _DAYS_IN_MONTH : list Z :=
  [-1; 31; 28; 31; 30; 31; 30; 31; 31; 30; 31; 30; 31].

Definition _DAYS_BEFORE_MONTH : list Z :=
  [-1; 0; 31; 59; 90; 120; 151; 181; 212; 243; 273; 304; 334].

Definition _days_in_month (year month : Z) : Z :=
  if (month =? 2) && _is_leap year then 29
  else nth (Z.to_nat month) _DAYS_IN_MONTH 0.

Definition _days_before_month (year month : Z) : Z :=
  nth (Z.to_nat month) _DAYS_BEFORE_MONTH 0
  + (if (2 <? month) && _is_leap year then 1 else 0).

Definition _ymd2ord (year month day : Z) : Z :=
  _days_before_year year + _days_before_month year month + day.

Definition toordinal (d : datetime) : Z := _ymd2ord (year d) (month d) (day d).

(** The values the [datetime] constructor accepts. *)
Definition valid (d : datetime) : Prop :=
  1 <= year d <= 9999 /\ 1 <= month d <= 12
  /\ 1 <= day d <= _days_in_month (year d) (month d)
  /\ 0 <= hour d < 24 /\ 0 <= minute d < 60 /\ 0 <= second d < 60
  /\ 0 <= microsecond d < 1000000.

(** [timedelta(days, seconds, microseconds)] on integers: the carries of
    the constructor. *)
Definition mk_timedelta (d s us : Z) : timedelta :=
  let s := s + us / 1000000 in
  let us := us mod 1000000 in
  let d := d + s / 86400 in
  let s := s mod 86400 in
  {| days := d; seconds := s; microseconds := us |}.

(** [self - other] for two datetimes (two aware ones with [tzinfo] objects
    of their own). *)
Definition sub (self other : datetime) : result timedelta :=
  let days1 := toordinal self in
  let days2 := toordinal other in
  let secs1 := second self + minute self * 60 + hour self * 3600 in
  let secs2 := second other + minute other * 60 + hour other * 3600 in
  let us := microsecond self - microsecond other in
  match utcoffset self, utcoffset other with
  | None, None => Ok (mk_timedelta (days1 - days2) (secs1 - secs2) us)
  | Some myoff, Some otoff =>
      Ok (mk_timedelta (days1 - days2) (secs1 - secs2) (us + otoff - myoff))
  | _, _ =>
      Raise (TypeError "can't subtract offset-naive and offset-aware datetimes")
  end.

(** [datetime.utcfromtimestamp(0)]: the naive datetime of the Unix epoch. *)
Definition utcfromtimestamp_0 : datetime :=
  {| year := 1970; month := 1; day := 1; hour := 0; minute := 0;
     second := 0; microsecond := 0; utcoffset := None |}.

(** A finite binary64 [float], by value: [mant * 2 ^ expo] with
    [|mant| <= 2^53]. *)
Record float : Type := { mant : Z; expo : Z }.

(** The integer nearest to [num / den], ties to the even one
    ([0 <= num], [0 < den]). *)
Definition round_half_even (num den : Z) : Z :=
  let q := num / den in
  let r := num mod den in
  if 2 * r <? den then q
  else if den <? 2 * r then q + 1
  else if Z.even q then q else q + 1.

(** [a / b] on [int]s ([0 < b]): the binary64 value nearest to the exact
    quotient, ties to even, as [long_true_divide] computes it.  Written for
    quotients in the normal range of binary64, where every quotient of
    [total_seconds] lies. *)
Definition true_divide (a b : Z) : float :=
  if a =? 0 then {| mant := 0; expo := 0 |}
  else
    let n := Z.abs a in
    let d := Z.log2 n - Z.log2 b in
    let at_least := if 0 <=? d then b * 2 ^ d <=? n else b <=? n * 2 ^ (- d) in
    (* 2^e0 <= n/b < 2^(e0+1) *)
    let e0 := if at_least then d else d - 1 in
    let e := e0 - 52 in
    let m := if 0 <=? e then round_half_even n (b * 2 ^ e)
             else round_half_even (n * 2 ^ (- e)) b in
    {| mant := Z.sgn a * m; expo := e |}.

(** [int(x)] for a finite float: the fraction is dropped, towards zero. *)
Definition int_of_float (x : float) : Z :=
  if 0 <=? expo x then mant x * 2 ^ expo x
  else Z.quot (mant x) (2 ^ (- expo x)).

(** The exact length of a [timedelta] in microseconds. *)
Definition total_microseconds (td : timedelta) : Z :=
  (days td * 86400 + seconds td) * 1000000 + microseconds td.

(** [td.total_seconds()]: the microseconds divided by [10**6], a float. *)
Definition total_seconds (td : timedelta) : float :=
  true_divide (total_microseconds td) 1000000.

(** [math.modf]: the whole part of a float and its fraction, both exact. *)
Definition modf (x : float) : Z * float :=
  if 0 <=? expo x then (mant x * 2 ^ expo x, {| mant := 0; expo := 0 |})
  else (Z.quot (mant x) (2 ^ (- expo x)),
        {| mant := Z.rem (mant x) (2 ^ (- expo x)); expo := expo x |}).

(** The float product [x * k] for an integer [k > 0] that is itself a
    float: the exact product rounded to nearest. *)
Definition float_mul (x : float) (k : Z) : float :=
  if 0 <=? expo x then true_divide (mant x * k * 2 ^ expo x) 1
  else true_divide (mant x * k) (2 ^ (- expo x)).

(** A float rounded to the nearest integer, ties to even
    ([_PyTime_ROUND_HALF_EVEN]). *)
Definition round_float (x : float) : Z :=
  if 0 <=? expo x then mant x * 2 ^ expo x
  else Z.sgn (mant x) * round_half_even (Z.abs (mant x)) (2 ^ (- expo x)).

(** [_ord2ymd(n)]: the year, month and day of a proleptic Gregorian
    ordinal. *)
Definition _ord2ymd (n : Z) : Z * Z * Z :=
  let n := n - 1 in
  let n400 := n / 146097 in let n := n mod 146097 in
  let year := n400 * 400 + 1 in
  let n100 := n / 36524 in let n := n mod 36524 in
  let n4 := n / 1461 in let n := n mod 1461 in
  let n1 := n / 365 in let n := n mod 365 in
  let year := year + n100 * 100 + n4 * 4 + n1 in
  if (n1 =? 4) || (n100 =? 4) then (year - 1, 12, 31)
  else
    let leapyear := (n1 =? 3) && (negb (n4 =? 24) || (n100 =? 3)) in
    let month := Z.shiftr (n + 50) 5 in
    let preceding := nth (Z.to_nat month) _DAYS_BEFORE_MONTH 0
                     + (if (2 <? month) && leapyear then 1 else 0) in
    let '(month, preceding) :=
      if n <? preceding
      then (month - 1,
            preceding - (nth (Z.to_nat (month - 1)) _DAYS_IN_MONTH 0
                         + (if (month - 1 =? 2) && leapyear then 1 else 0)))
      else (month, preceding) in
    (year, month, n - preceding + 1).

(** [datetime.utcfromtimestamp(t)] for a float [t]: the timestamp is
    rounded to the nearest microsecond, ties to even, and the seconds are
    read as a UTC date and time.  A year outside 1..9999 raises. *)
Definition utcfromtimestamp (t : float) : result datetime :=
  let (intpart, floatpart) := modf t in
  let us := round_float (float_mul floatpart 1000000) in
  let '(sec, us) :=
    if 1000000 <=? us then (intpart + 1, us - 1000000)
    else if us <? 0 then (intpart - 1, us + 1000000)
    else (intpart, us) in
  let '(y, m, d) := _ord2ymd (sec / 86400 + 719163) in
  let rest := sec mod 86400 in
  if (1 <=? y) && (y <=? 9999) then
    Ok {| year := y; month := m; day := d;
          hour := rest / 3600; minute := rest mod 3600 / 60; second := rest mod 60;
          microsecond := us; utcoffset := None |}
  else Raise (ValueError "year is out of range").

(** A command-line argument that is a plain decimal numeral, such as
    [1.9999999]: its digits as an integer, and how many of them stand after
    the point. *)
Record numeral : Type := { digits : Z; decimals : Z }.

(** [float(d)] for such a numeral: the float nearest to it. *)
Definition float_of_numeral (d : numeral) : float :=
  true_divide (digits d) (10 ^ decimals d).

End Datetime.

(** ** [str.encode] *)

Module Codec.
Local Open Scope py_scope.

Definition is_surrogate (c : Z) : bool := (55296 <=? c) && (c <=? 57343).

(** The UTF-8 bytes of one code point that is not a surrogate. *)
Definition utf8_char (c : Z) : bytes :=
  if c <? 128 then [c]
  else if c <? 2048 then
    [Z.lor 192 (Z.shiftr c 6); Z.lor 128 (Z.land c 63)]
  else if c <? 65536 then
    [Z.lor 224 (Z.shiftr c 12);
     Z.lor 128 (Z.land (Z.shiftr c 6) 63);
     Z.lor 128 (Z.land c 63)]
  else
    [Z.lor 240 (Z.shiftr c 18);
     Z.lor 128 (Z.land (Z.shiftr c 12) 63);
     Z.lor 128 (Z.land (Z.shiftr c 6) 63);
     Z.lor 128 (Z.land c 63)].

Fixpoint encode_utf8_from (pos : nat) (s : str) : result bytes :=
  match s with
  | [] => Ok []
  | c :: s' =>
      if is_surrogate c
      then Raise (UnicodeEncodeError "utf-8" pos "surrogates not allowed")
      else rest <- encode_utf8_from (S pos) s' ;; Ok (utf8_char c ++ rest)
  end.

(** [s.encode('utf-8')] *)
Definition encode_utf8 (s : str) : result bytes := encode_utf8_from 0 s.


(** [b.decode('utf-8')] for ASCII bytes, the only ones [sign_url] decodes
    (the output of [urlsafe_b64encode], see [urlsafe_b64encode_chars]): a
    byte below 128 is its own code point. *)
Definition decode_utf8_ascii (b : bytes) : str := b.

End Codec.

(** ** [binascii] and [base64] *)

Module Base64.
Import Str.
Local Open Scope py_scope.

(** [table_b2a_base64]: the character of a 6-bit value. *)
Definition table_b2a_base64 (i : Z) : Z :=
  if i <? 26 then chr "A" + i
  else if i <? 52 then chr "a" + (i - 26)
  else if i <? 62 then chr "0" + (i - 52)
  else if i =? 62 then chr "+"
  else chr "/".

(** [table_a2b_base64]: the 6-bit value of a character, 64 or more for a
    character outside the alphabet. *)
Definition table_a2b_base64 (c : Z) : Z :=
  if is_upper c then c - chr "A"
  else if is_lower c then c - chr "a" + 26
  else if is_digit c then c - chr "0" + 52
  else if c =? chr "+" then 62
  else if c =? chr "/" then 63
  else 255.

Definition BASE64_PAD : Z := chr "=".

(** [binascii.b2a_base64(data, newline=False)] *)
Fixpoint b2a_base64 (data : bytes) : bytes :=
  match data with
  | [] => []
  | [a] =>
      [table_b2a_base64 (Z.shiftr a 2);
       table_b2a_base64 (Z.shiftl (Z.land a 3) 4);
       BASE64_PAD; BASE64_PAD]
  | [a; b] =>
      [table_b2a_base64 (Z.shiftr a 2);
       table_b2a_base64 (Z.lor (Z.shiftl (Z.land a 3) 4) (Z.shiftr b 4));
       table_b2a_base64 (Z.shiftl (Z.land b 15) 2);
       BASE64_PAD]
  | a :: b :: c :: rest =>
      table_b2a_base64 (Z.shiftr a 2)
      :: table_b2a_base64 (Z.lor (Z.shiftl (Z.land a 3) 4) (Z.shiftr b 4))
      :: table_b2a_base64 (Z.lor (Z.shiftl (Z.land b 15) 2) (Z.shiftr c 6))
      :: table_b2a_base64 (Z.land c 63)
      :: b2a_base64 rest
  end.

(** The loop of [binascii.a2b_base64(data, strict_mode=False)] from a given
    [quad_pos], [leftchar] and [pads]; the bytes written from there on.
    Characters outside the alphabet are skipped; a pad that completes a
    quad ends the input; leftover characters at the end raise. *)
Fixpoint a2b_loop (data : bytes) (quad_pos leftchar pads : Z) : result bytes :=
  match data with
  | [] =>
      if quad_pos =? 0 then Ok []
      else if quad_pos =? 1 then
        Raise (binascii_Error
          "Invalid base64-encoded string: number of data characters cannot be 1 more than a multiple of 4")
      else Raise (binascii_Error "Incorrect padding")
  | this_ch :: rest =>
      if this_ch =? BASE64_PAD then
        if 2 <=? quad_pos then
          if 4 <=? quad_pos + (pads + 1) then Ok []
          else a2b_loop rest quad_pos leftchar (pads + 1)
        else a2b_loop rest quad_pos leftchar pads
      else
        let v := table_a2b_base64 this_ch in
        if 64 <=? v then a2b_loop rest quad_pos leftchar pads
        else if quad_pos =? 0 then a2b_loop rest 1 v 0
        else if quad_pos =? 1 then
          tail <- a2b_loop rest 2 (Z.land v 15) 0 ;;
          Ok (Z.land (Z.lor (Z.shiftl leftchar 2) (Z.shiftr v 4)) 255 :: tail)
        else if quad_pos =? 2 then
          tail <- a2b_loop rest 3 (Z.land v 3) 0 ;;
          Ok (Z.land (Z.lor (Z.shiftl leftchar 4) (Z.shiftr v 2)) 255 :: tail)
        else
          tail <- a2b_loop rest 0 0 0 ;;
          Ok (Z.land (Z.lor (Z.shiftl leftchar 6) v) 255 :: tail)
  end.

Definition a2b_base64 (data : bytes) : result bytes := a2b_loop data 0 0 0.

(** [_bytes_from_decode_data(s)] for a [str] argument. *)
Definition _bytes_from_decode_data (s : str) : result bytes :=
  if forallb isascii s then Ok s
  else Raise (ValueError "string argument should contain only ASCII characters").

(** [bytes.translate] with [_urlsafe_encode_translation] and
    [_urlsafe_decode_translation]. *)
Definition _urlsafe_encode_translation (b : Z) : Z :=
  if b =? chr "+" then chr "-" else if b =? chr "/" then chr "_" else b.
Definition _urlsafe_decode_translation (b : Z) : Z :=
  if b =? chr "-" then chr "+" else if b =? chr "_" then chr "/" else b.

Definition urlsafe_b64encode (s : bytes) : bytes :=
  map _urlsafe_encode_translation (b2a_base64 s).

Definition urlsafe_b64decode (s : str) : result bytes :=
  b <- _bytes_from_decode_data s ;;
  a2b_base64 (map _urlsafe_decode_translation b).

End Base64.

(** ** [hashlib.sha1] and [hmac] *)

Module Sha1.

Definition mask32 (x : Z) : Z := Z.land x 4294967295.
Definition add32 (x y : Z) : Z := mask32 (x + y).
Definition rotl (n x : Z) : Z :=
  mask32 (Z.lor (Z.shiftl x n) (Z.shiftr x (32 - n))).
Definition not32 (x : Z) : Z := Z.lxor x 4294967295.

(** The four bytes of a 32-bit word, most significant first. *)
Definition be32 (w : Z) : bytes :=
  [Z.land (Z.shiftr w 24) 255; Z.land (Z.shiftr w 16) 255;
   Z.land (Z.shiftr w 8) 255; Z.land w 255].

Definition be64 (w : Z) : bytes :=
  be32 (Z.shiftr w 32) ++ be32 (Z.land w 4294967295).

(** The message followed by the bit 1, zeros, and its length in bits as a
    64-bit word: a multiple of 64 bytes. *)
Definition pad (msg : bytes) : bytes :=
  let len := Z.of_nat (List.length msg) in
  msg ++ [128] ++ repeat 0 (Z.to_nat ((55 - len) mod 64)) ++ be64 (8 * len).

Fixpoint words (b : bytes) : list Z :=
  match b with
  | b0 :: b1 :: b2 :: b3 :: rest =>
      Z.lor (Z.shiftl b0 24) (Z.lor (Z.shiftl b1 16) (Z.lor (Z.shiftl b2 8) b3))
      :: words rest
  | _ => []
  end.

(** The message schedule: [n] more words after [w]. *)
Fixpoint extend (n : nat) (w : list Z) : list Z :=
  match n with
  | O => w
  | S n' =>
      let i := List.length w in
      let x := Z.lxor (Z.lxor (nth (i - 3) w 0) (nth (i - 8) w 0))
                      (Z.lxor (nth (i - 14) w 0) (nth (i - 16) w 0)) in
      extend n' (w ++ [rotl 1 x])
  end.

Record state : Type := { h0 : Z; h1 : Z; h2 : Z; h3 : Z; h4 : Z }.

Definition init : state :=
  {| h0 := 1732584193; h1 := 4023233417; h2 := 2562383102;
     h3 := 271733878; h4 := 3285377520 |}.

Definition round_f (i : nat) (b c d : Z) : Z :=
  if (i <? 20)%nat then Z.lor (Z.land b c) (Z.land (not32 b) d)
  else if (i <? 40)%nat then Z.lxor (Z.lxor b c) d
  else if (i <? 60)%nat then
    Z.lor (Z.lor (Z.land b c) (Z.land b d)) (Z.land c d)
  else Z.lxor (Z.lxor b c) d.

Definition round_k (i : nat) : Z :=
  if (i <? 20)%nat then 1518500249
  else if (i <? 40)%nat then 1859775393
  else if (i <? 60)%nat then 2400959708
  else 3395469782.

Fixpoint rounds (i : nat) (w : list Z) (s : state) : state :=
  match w with
  | [] => s
  | wi :: w' =>
      let temp := add32 (add32 (add32 (add32 (rotl 5 (h0 s))
                    (round_f i (h1 s) (h2 s) (h3 s))) (h4 s)) (round_k i)) wi in
      rounds (S i) w'
        {| h0 := temp; h1 := h0 s; h2 := rotl 30 (h1 s); h3 := h2 s; h4 := h3 s |}
  end.

(** One 64-byte block folded into the chaining state. *)
Definition compress (s : state) (block : bytes) : state :=
  let w := extend 64 (words block) in
  let t := rounds 0 w s in
  {| h0 := add32 (h0 s) (h0 t); h1 := add32 (h1 s) (h1 t);
     h2 := add32 (h2 s) (h2 t); h3 := add32 (h3 s) (h3 t);
     h4 := add32 (h4 s) (h4 t) |}.

Fixpoint blocks (n : nat) (b : bytes) (s : state) : state :=
  match n with
  | O => s
  | S n' =>
      match b with
      | [] => s
      | _ => blocks n' (skipn 64 b) (compress s (firstn 64 b))
      end
  end.

Definition output (s : state) : bytes :=
  be32 (h0 s) ++ be32 (h1 s) ++ be32 (h2 s) ++ be32 (h3 s) ++ be32 (h4 s).

(** [hashlib.sha1(msg).digest()] *)
Definition sha1 (msg : bytes) : bytes :=
  let p := pad msg in
  output (blocks (List.length p) p init).

End Sha1.

Module Hmac.

Definition block_size : nat := 64.

(** [hmac.new(key, msg, hashlib.sha1).digest()] *)
Definition hmac_sha1 (key msg : bytes) : bytes :=
  let key := if (block_size <? List.length key)%nat then Sha1.sha1 key else key in
  let key := key ++ repeat 0 (block_size - List.length key) in
  let inner := Sha1.sha1 (map (Z.lxor 54) key ++ msg) in
  Sha1.sha1 (map (Z.lxor 92) key ++ inner).

End Hmac.

(** ** cdn/snippets.py *)

Module Snippets.
Import Str.

(** The state of the process a call runs in: the text written to standard
    output so far, and the two sources a program could draw a timestamp or
    randomness from, the wall clock and the system's entropy. *)
Record World : Type := {
  stdout : str;
  clock : Z;
  entropy : list Z
}.

(** A computation that may raise and may change the world. *)
Definition M (A : Type) : Type := World -> result A * World.

Definition lift {A} (r : result A) : M A := fun w => (r, w).

Definition bindM {A B} (m : M A) (k : A -> M B) : M B :=
  fun w =>
    match m w with
    | (Ok a, w') => k a w'
    | (Raise e, w') => (Raise e, w')
    end.

Declare Scope io_scope.
Delimit Scope io_scope with io.
Notation "x <- m ;; k" := (bindM m (fun x => k))
  (at level 61, m at next level, right associativity) : io_scope.

(** [print(s)]: [s] and a newline go to standard output, a text stream
    taken to accept every character UTF-8 can encode. *)
Definition print (s : str) : M unit :=
  fun w => (Ok tt, {| stdout := stdout w ++ s ++ [10];
                      clock := clock w; entropy := entropy w |}).

Section Signer.
Variable NFKC : str -> str.
Variable ip_address : str -> Urllib.ip_kind.
Variable unquote : str -> str.

Local Open Scope io_scope.

(** [sign_url(url, key_name, base64_key, expiration_time)].  It returns
    [None] and prints the signed URL. *)
Definition sign_url (url key_name base64_key : str)
           (expiration_time : Datetime.datetime) : M unit :=
  let stripped_url := strip url in
  parsed_url <- lift (Urllib.urlsplit NFKC ip_address stripped_url) ;;
  let query_params :=
    Urllib.parse_qs unquote (Urllib.query parsed_url) true in
  let epoch := Datetime.utcfromtimestamp_0 in
  delta <- lift (Datetime.sub expiration_time epoch) ;;
  let expiration_timestamp :=
    Datetime.int_of_float (Datetime.total_seconds delta) in
  decoded_key <- lift (Base64.urlsafe_b64decode base64_key) ;;
  let url_to_sign :=
    stripped_url
    ++ (if Urllib.truthy query_params then lit "&" else lit "?")
    ++ lit "Expires=" ++ of_int expiration_timestamp
    ++ lit "&KeyName=" ++ key_name in
  message <- lift (Codec.encode_utf8 url_to_sign) ;;
  let digest := Hmac.hmac_sha1 decoded_key message in
  let signature :=
    Codec.decode_utf8_ascii (Base64.urlsafe_b64encode digest) in
  let signed_url := url_to_sign ++ lit "&Signature=" ++ signature in
  print signed_url.

End Signer.

(** The [type] of the [expiration_time] argument of the [sign-url]
    command: [lambda d: datetime.datetime.utcfromtimestamp(float(d))]. *)
Definition expiration_time_type (d : Datetime.numeral)
  : result Datetime.datetime :=
  Datetime.utcfromtimestamp (Datetime.float_of_numeral d).

(** Instances of the three library parameters for the examples below.
    They are exact on the inputs used there: NFKC leaves ASCII text as it
    is, [unquote] leaves text without a percent sign as it is, and no
    example has a bracketed host other than the loopback address. *)
Definition NFKC_ascii : str -> str := fun s => s.
Definition ip_address_loopback : str -> Urllib.ip_kind :=
  fun h => if Str.eqb h (lit "::1") then Urllib.IPv6Address
           else Urllib.NotAnAddress.
Definition unquote_plain : str -> str := fun s => s.

Definition sign_url_ex : str -> str -> str -> Datetime.datetime -> M unit :=
  sign_url NFKC_ascii ip_address_loopback unquote_plain.

(** A naive datetime. *)
Definition naive (y mo d h mi s us : Z) : Datetime.datetime :=
  {| Datetime.year := y; Datetime.month := mo; Datetime.day := d;
     Datetime.hour := h; Datetime.minute := mi; Datetime.second := s;
     Datetime.microsecond := us; Datetime.utcoffset := None |}.

Definition world0 : World := {| stdout := []; clock := 0; entropy := [] |}.

End Snippets.

(** * Properties *)

(** ** Stripping *)

Module StrFacts.
Import Str.

Lemma dropwhile_split (p : Z -> bool) (s : str) :
  exists pre, s = pre ++ dropwhile p s /\ forallb p pre = true.
Proof.
  induction s as [|c s IH]; simpl.
  - exists []. split; reflexivity.
  - destruct (p c) eqn:Hc.
    + destruct IH as [pre [Hs Hp]]. exists (c :: pre). simpl.
      rewrite Hc, Hp. split; [f_equal; exact Hs | reflexivity].
    + exists []. split; reflexivity.
Qed.

Lemma dropwhile_head (p : Z -> bool) (s : str) :
  match dropwhile p s with
  | [] => True
  | c :: _ => p c = false
  end.
Proof.
  induction s as [|c s IH]; simpl; [exact I|].
  destruct (p c) eqn:Hc; [exact IH | exact Hc].
Qed.

Lemma forallb_rev (p : Z -> bool) (s : str) :
  forallb p (rev s) = forallb p s.
Proof.
  induction s as [|c s IH]; simpl; [reflexivity|].
  rewrite forallb_app, IH. simpl. rewrite andb_true_r. apply andb_comm.
Qed.

(** The first and the last character of a string, when it has one. *)
Definition first_char (s : str) : option Z :=
  match s with [] => None | c :: _ => Some c end.
Definition last_char (s : str) : option Z := first_char (rev s).

Definition not_space (o : option Z) : Prop :=
  match o with None => True | Some c => isspace c = false end.

Lemma rstrip_split (p : Z -> bool) (s : str) :
  exists post, s = rstrip_with p s ++ post /\ forallb p post = true.
Proof.
  unfold rstrip_with.
  destruct (dropwhile_split p (rev s)) as [pre [Hs Hp]].
  exists (rev pre). split.
  - rewrite <- rev_app_distr, <- Hs, rev_involutive. reflexivity.
  - rewrite forallb_rev. exact Hp.
Qed.

Lemma rstrip_first (p : Z -> bool) (s : str) :
  match s with
  | [] => True
  | c :: _ => p c = false -> first_char (rstrip_with p s) = Some c
  end.
Proof.
  destruct s as [|c s]; [exact I|]. intro Hc.
  destruct (rstrip_split p (c :: s)) as [post [Hs Hp]].
  destruct (rstrip_with p (c :: s)) as [|x r] eqn:Hr.
  - simpl in Hs. subst post. simpl in Hp. rewrite Hc in Hp. discriminate.
  - simpl in Hs. injection Hs as Hx _. subst x. reflexivity.
Qed.

(** [strip] removes a run of whitespace at each end and nothing else: what
    is left neither starts nor ends with whitespace. *)
Lemma strip_spec (s : str) :
  exists pre post,
    s = pre ++ strip s ++ post
    /\ forallb isspace pre = true /\ forallb isspace post = true
    /\ not_space (first_char (strip s)) /\ not_space (last_char (strip s)).
Proof.
  unfold strip, lstrip_with.
  destruct (dropwhile_split isspace s) as [pre [Hs Hpre]].
  destruct (rstrip_split isspace (dropwhile isspace s)) as [post [Ht Hpost]].
  exists pre, post. repeat split; try assumption.
  - rewrite <- Ht. exact Hs.
  - pose proof (dropwhile_head isspace s) as Hh.
    pose proof (rstrip_first isspace (dropwhile isspace s)) as Hf.
    destruct (dropwhile isspace s) as [|c t] eqn:Hd.
    + unfold rstrip_with. simpl. exact I.
    + rewrite (Hf Hh). exact Hh.
  - unfold last_char, rstrip_with. rewrite rev_involutive.
    pose proof (dropwhile_head isspace (rev (dropwhile isspace s))) as Hh.
    destruct (dropwhile isspace (rev (dropwhile isspace s))); [exact I | exact Hh].
Qed.

End StrFacts.

(** ** Base64 *)

Module Base64Facts.
Import Base64.

(** Checking a property of bytes by running through all of them. *)
Definition below (n : nat) : list Z := map Z.of_nat (seq 0 n).

Lemma in_below (n : nat) (a : Z) : 0 <= a < Z.of_nat n -> In a (below n).
Proof.
  intros H. unfold below. apply in_map_iff. exists (Z.to_nat a).
  split; [lia|]. apply in_seq. lia.
Qed.

Lemma check1 (n : nat) (f : Z -> bool) :
  forallb f (below n) = true -> forall a, 0 <= a < Z.of_nat n -> f a = true.
Proof.
  intros H a Ha. rewrite forallb_forall in H. apply H, in_below, Ha.
Qed.

Lemma check2 (n m : nat) (f : Z -> Z -> bool) :
  forallb (fun a => forallb (f a) (below m)) (below n) = true ->
  forall a b, 0 <= a < Z.of_nat n -> 0 <= b < Z.of_nat m -> f a b = true.
Proof.
  intros H a b Ha Hb.
  pose proof (check1 n _ H a Ha) as Hm. exact (check1 m _ Hm b Hb).
Qed.

(** The four 6-bit values of three bytes. *)
Definition e1 (a : Z) : Z := Z.shiftr a 2.
Definition e2 (a b : Z) : Z := Z.lor (Z.shiftl (Z.land a 3) 4) (Z.shiftr b 4).
Definition e3 (b c : Z) : Z := Z.lor (Z.shiftl (Z.land b 15) 2) (Z.shiftr c 6).
Definition e4 (c : Z) : Z := Z.land c 63.

(** A 6-bit value as the URL-safe encoder writes it, and as the URL-safe
    decoder reads that character back. *)
Definition enc (i : Z) : Z := _urlsafe_encode_translation (table_b2a_base64 i).
Definition code (i : Z) : Z := _urlsafe_decode_translation (enc i).

Lemma code_ok (i : Z) :
  0 <= i < 64 ->
  (code i =? BASE64_PAD) = false /\ table_a2b_base64 (code i) = i.
Proof.
  intros Hi.
  assert (H : (negb (code i =? BASE64_PAD) && (table_a2b_base64 (code i) =? i)) = true).
  { revert i Hi. apply (check1 64). vm_compute. reflexivity. }
  apply andb_true_iff in H. destruct H as [H1 H2].
  split; [apply negb_true_iff, H1 | apply Z.eqb_eq, H2].
Qed.

Lemma e_range (a b : Z) :
  is_byte a -> is_byte b ->
  0 <= e1 a < 64 /\ 0 <= e2 a b < 64 /\ 0 <= e3 a b < 64 /\ 0 <= e4 a < 64
  /\ 0 <= Z.shiftl (Z.land a 3) 4 < 64 /\ 0 <= Z.shiftl (Z.land a 15) 2 < 64.
Proof.
  intros Ha Hb.
  assert (H : ((0 <=? e1 a) && (e1 a <? 64) && (0 <=? e2 a b) && (e2 a b <? 64)
               && (0 <=? e3 a b) && (e3 a b <? 64) && (0 <=? e4 a) && (e4 a <? 64)
               && (0 <=? Z.shiftl (Z.land a 3) 4) && (Z.shiftl (Z.land a 3) 4 <? 64)
               && (0 <=? Z.shiftl (Z.land a 15) 2) && (Z.shiftl (Z.land a 15) 2 <? 64)) = true).
  { revert a b Ha Hb. apply (check2 256 256). vm_compute. reflexivity. }
  repeat rewrite andb_true_iff in H. lia.
Qed.

(** What the decoder rebuilds from the 6-bit values. *)
Lemma bits_back (a b c : Z) :
  is_byte a -> is_byte b -> is_byte c ->
  Z.land (Z.lor (Z.shiftl (e1 a) 2) (Z.shiftr (e2 a b) 4)) 255 = a
  /\ Z.land (Z.lor (Z.shiftl (Z.land (e2 a b) 15) 4) (Z.shiftr (e3 b c) 2)) 255 = b
  /\ Z.land (Z.lor (Z.shiftl (Z.land (e3 b c) 3) 6) (e4 c)) 255 = c.
Proof.
  intros Ha Hb Hc.
  assert (H1 : forall a b, is_byte a -> is_byte b ->
            ((Z.land (Z.lor (Z.shiftl (e1 a) 2) (Z.shiftr (e2 a b) 4)) 255 =? a)
             && (Z.land (e2 a b) 15 =? Z.shiftr b 4)
             && (Z.shiftr (e3 a b) 2 =? Z.land a 15)
             && (Z.land (Z.lor (Z.shiftl (Z.land (e3 a b) 3) 6) (e4 b)) 255 =? b)
             && (Z.land (Z.lor (Z.shiftl (Z.shiftr a 4) 4) (Z.land a 15)) 255 =? a)) = true).
  { apply (check2 256 256). vm_compute. reflexivity. }
  pose proof (H1 a b Ha Hb) as Hab. pose proof (H1 b c Hb Hc) as Hbc.
  repeat rewrite andb_true_iff in Hab. repeat rewrite andb_true_iff in Hbc.
  repeat rewrite Z.eqb_eq in Hab. repeat rewrite Z.eqb_eq in Hbc.
  destruct Hab as [[[[A1 A2] A3] A4] A5]. destruct Hbc as [[[[B1 B2] B3] B4] B5].
  split; [exact A1|]. split; [|exact B4].
  rewrite A2, B3. exact B5.
Qed.

(** The same for the shorter last groups. *)
Lemma bits_back_tail (a b : Z) :
  is_byte a -> is_byte b ->
  Z.land (Z.lor (Z.shiftl (e1 a) 2) (Z.shiftr (Z.shiftl (Z.land a 3) 4) 4)) 255 = a
  /\ Z.land (Z.lor (Z.shiftl (Z.land (e2 a b) 15) 4)
                   (Z.shiftr (Z.shiftl (Z.land b 15) 2) 2)) 255 = b.
Proof.
  intros Ha Hb.
  assert (H : ((Z.land (Z.lor (Z.shiftl (e1 a) 2)
                   (Z.shiftr (Z.shiftl (Z.land a 3) 4) 4)) 255 =? a)
               && (Z.land (Z.lor (Z.shiftl (Z.land (e2 a b) 15) 4)
                   (Z.shiftr (Z.shiftl (Z.land b 15) 2) 2)) 255 =? b)) = true).
  { revert a b Ha Hb. apply (check2 256 256). vm_compute. reflexivity. }
  apply andb_true_iff in H. repeat rewrite Z.eqb_eq in H. exact H.
Qed.

Local Open Scope py_scope.
Arguments code : simpl never.
Arguments enc : simpl never.

(** One character of the alphabet through the decoder's loop, from each
    position of the quad. *)
Lemma a2b_step (i : Z) (rest : bytes) (quad_pos lc p : Z) :
  0 <= i < 64 ->
  a2b_loop (code i :: rest) quad_pos lc p =
    if quad_pos =? 0 then a2b_loop rest 1 i 0
    else if quad_pos =? 1 then
      tail <- a2b_loop rest 2 (Z.land i 15) 0 ;;
      Ok (Z.land (Z.lor (Z.shiftl lc 2) (Z.shiftr i 4)) 255 :: tail)
    else if quad_pos =? 2 then
      tail <- a2b_loop rest 3 (Z.land i 3) 0 ;;
      Ok (Z.land (Z.lor (Z.shiftl lc 4) (Z.shiftr i 2)) 255 :: tail)
    else
      tail <- a2b_loop rest 0 0 0 ;;
      Ok (Z.land (Z.lor (Z.shiftl lc 6) i) 255 :: tail).
Proof.
  intros Hi. destruct (code_ok i Hi) as [Hpad Htab].
  cbn [a2b_loop]. rewrite Hpad, Htab.
  replace (64 <=? i) with false by (symmetry; apply Z.leb_gt; lia).
  reflexivity.
Qed.

(** A full group of three bytes comes back, and the loop is at the start
    of a quad again. *)
Lemma a2b_quad (a b c : Z) (rest : bytes) (lc p : Z) :
  is_byte a -> is_byte b -> is_byte c ->
  a2b_loop (code (e1 a) :: code (e2 a b) :: code (e3 b c) :: code (e4 c) :: rest)
           0 lc p =
    tail <- a2b_loop rest 0 0 0 ;; Ok (a :: b :: c :: tail).
Proof.
  intros Ha Hb Hc.
  pose proof (e_range a b Ha Hb) as [R1 [R2 _]].
  pose proof (e_range b c Hb Hc) as [_ [_ [R3 _]]].
  pose proof (e_range c c Hc Hc) as [_ [_ [_ [R4 _]]]].
  pose proof (bits_back a b c Ha Hb Hc) as [B1 [B2 B3]].
  rewrite (a2b_step _ _ 0 lc p R1). cbn [Z.eqb].
  rewrite (a2b_step _ _ 1 _ 0 R2). cbn [Z.eqb Pos.eqb].
  rewrite (a2b_step _ _ 2 _ 0 R3). cbn [Z.eqb Pos.eqb].
  rewrite (a2b_step _ _ 3 _ 0 R4). cbn [Z.eqb Pos.eqb].
  rewrite B1, B2, B3.
  destruct (a2b_loop rest 0 0 0); reflexivity.
Qed.

Definition pad_char : Z := _urlsafe_decode_translation (_urlsafe_encode_translation BASE64_PAD).

Lemma a2b_tail2 (a b : Z) (lc p : Z) :
  is_byte a -> is_byte b ->
  a2b_loop [code (e1 a); code (e2 a b); code (Z.shiftl (Z.land b 15) 2); pad_char]
           0 lc p = Ok [a; b].
Proof.
  intros Ha Hb.
  pose proof (e_range a b Ha Hb) as [R1 [R2 _]].
  pose proof (e_range b b Hb Hb) as [_ [_ [_ [_ [_ R3]]]]].
  pose proof (bits_back_tail a b Ha Hb) as [_ B2].
  pose proof (bits_back a b b Ha Hb Hb) as [B1 _].
  rewrite (a2b_step _ _ 0 lc p R1). cbn [Z.eqb].
  rewrite (a2b_step _ _ 1 _ 0 R2). cbn [Z.eqb Pos.eqb].
  rewrite (a2b_step _ _ 2 _ 0 R3). cbn [Z.eqb Pos.eqb].
  rewrite B1, B2. reflexivity.
Qed.

Lemma a2b_tail1 (a : Z) (lc p : Z) :
  is_byte a ->
  a2b_loop [code (e1 a); code (Z.shiftl (Z.land a 3) 4); pad_char; pad_char]
           0 lc p = Ok [a].
Proof.
  intros Ha.
  pose proof (e_range a a Ha Ha) as [R1 [_ [_ [_ [R2 _]]]]].
  pose proof (bits_back_tail a a Ha Ha) as [B1 _].
  rewrite (a2b_step _ _ 0 lc p R1). cbn [Z.eqb].
  rewrite (a2b_step _ _ 1 _ 0 R2). cbn [Z.eqb Pos.eqb].
  rewrite B1. reflexivity.
Qed.

(** Decoding what the encoder wrote gives the bytes back. *)
Lemma a2b_b2a (n : nat) :
  forall bs, (List.length bs <= n)%nat -> wf_bytes bs ->
    a2b_loop (map _urlsafe_decode_translation
                (map _urlsafe_encode_translation (b2a_base64 bs))) 0 0 0 = Ok bs.
Proof.
  induction n as [n IH] using lt_wf_ind. intros bs Hlen Hwf.
  destruct bs as [|a [|b [|c rest]]].
  - reflexivity.
  - inversion Hwf; subst. exact (a2b_tail1 a 0 0 H1).
  - inversion Hwf as [|? ? Ha Hwf']; subst. inversion Hwf' as [|? ? Hb _]; subst.
    exact (a2b_tail2 a b 0 0 Ha Hb).
  - inversion Hwf as [|? ? Ha Hwf']; subst.
    inversion Hwf' as [|? ? Hb Hwf'']; subst.
    inversion Hwf'' as [|? ? Hc Hrest]; subst.
    change (a2b_loop (code (e1 a) :: code (e2 a b) :: code (e3 b c) :: code (e4 c)
              :: map _urlsafe_decode_translation
                   (map _urlsafe_encode_translation (b2a_base64 rest))) 0 0 0
            = Ok (a :: b :: c :: rest)).
    rewrite (a2b_quad a b c _ 0 0 Ha Hb Hc).
    simpl in Hlen.
    rewrite (IH (List.length rest)); [reflexivity | lia | lia | exact Hrest].
Qed.

(** The characters the URL-safe encoder writes. *)
Definition b64url_char (c : Z) : bool :=
  Str.is_upper c || Str.is_lower c || Str.is_digit c
  || (c =? chr "-") || (c =? chr "_").

Lemma enc_char (i : Z) : 0 <= i < 64 -> b64url_char (enc i) = true.
Proof.
  revert i. apply (check1 64). vm_compute. reflexivity.
Qed.

Lemma b64url_char_ascii (c : Z) :
  b64url_char c = true \/ c = BASE64_PAD ->
  Str.isascii c = true /\ c <> chr "&" /\ c <> chr "#" /\ c <> chr "?".
Proof.
  unfold b64url_char, Str.is_upper, Str.is_lower, Str.is_digit, Str.isascii,
    BASE64_PAD, chr. simpl. intros [H | H]; lia.
Qed.

Lemma urlsafe_b64encode_chars (n : nat) :
  forall bs, (List.length bs <= n)%nat -> wf_bytes bs ->
    forallb (fun c => b64url_char c || (c =? BASE64_PAD))
            (urlsafe_b64encode bs) = true.
Proof.
  induction n as [n IH] using lt_wf_ind. intros bs Hlen Hwf.
  destruct bs as [|a [|b [|c rest]]].
  - reflexivity.
  - inversion Hwf as [|? ? Ha _]; subst.
    pose proof (e_range a a Ha Ha) as [R1 [_ [_ [_ [R2 _]]]]].
    unfold e1 in R1.
    unfold urlsafe_b64encode. cbn [b2a_base64 map forallb].
    fold (enc (Z.shiftr a 2)). fold (enc (Z.shiftl (Z.land a 3) 4)).
    rewrite (enc_char _ R1), (enc_char _ R2). reflexivity.
  - inversion Hwf as [|? ? Ha Hwf']; subst. inversion Hwf' as [|? ? Hb _]; subst.
    pose proof (e_range a b Ha Hb) as [R1 [R2 _]].
    pose proof (e_range b b Hb Hb) as [_ [_ [_ [_ [_ R3]]]]].
    unfold e1 in R1.
    unfold urlsafe_b64encode. cbn [b2a_base64 map forallb].
    fold (enc (Z.shiftr a 2)). fold (e2 a b). fold (enc (e2 a b)).
    fold (enc (Z.shiftl (Z.land b 15) 2)).
    rewrite (enc_char _ R1), (enc_char _ R2), (enc_char _ R3). reflexivity.
  - inversion Hwf as [|? ? Ha Hwf']; subst.
    inversion Hwf' as [|? ? Hb Hwf'']; subst.
    inversion Hwf'' as [|? ? Hc Hrest]; subst.
    pose proof (e_range a b Ha Hb) as [R1 [R2 _]].
    pose proof (e_range b c Hb Hc) as [_ [_ [R3 _]]].
    pose proof (e_range c c Hc Hc) as [_ [_ [_ [R4 _]]]].
    unfold urlsafe_b64encode. cbn [b2a_base64 map forallb].
    fold (enc (Z.shiftr a 2)). fold (e2 a b). fold (enc (e2 a b)).
    fold (e3 b c). fold (enc (e3 b c)). fold (e4 c). fold (enc (e4 c)).
    unfold e1 in R1.
    rewrite (enc_char _ R1), (enc_char _ R2), (enc_char _ R3), (enc_char _ R4).
    cbn [orb andb]. simpl in Hlen.
    apply (IH (List.length rest)); [lia | lia | exact Hrest].
Qed.

(** **** Round trip
    [urlsafe_b64decode] undoes [urlsafe_b64encode], read as text. *)
Lemma urlsafe_b64_roundtrip (bs : bytes) :
  wf_bytes bs ->
  urlsafe_b64decode (Codec.decode_utf8_ascii (urlsafe_b64encode bs)) = Ok bs.
Proof.
  intros Hwf. unfold urlsafe_b64decode, _bytes_from_decode_data, Codec.decode_utf8_ascii.
  assert (Hascii : forallb Str.isascii (urlsafe_b64encode bs) = true).
  { pose proof (urlsafe_b64encode_chars _ bs (le_n _) Hwf) as H.
    rewrite forallb_forall in H |- *. intros c Hc. specialize (H c Hc).
    apply b64url_char_ascii. apply orb_true_iff in H.
    destruct H as [H | H]; [left; exact H | right; apply Z.eqb_eq, H]. }
  rewrite Hascii. cbn [bind]. unfold a2b_base64, urlsafe_b64encode.
  exact (a2b_b2a _ bs (le_n _) Hwf).
Qed.

End Base64Facts.

(** ** SHA-1 and HMAC digests *)

Module DigestFacts.
Import Sha1 Hmac.

Lemma land255_byte (x : Z) : is_byte (Z.land x 255).
Proof.
  unfold is_byte. change 255 with (Z.ones 8). rewrite Z.land_ones by lia.
  apply Z.mod_pos_bound. reflexivity.
Qed.

Lemma be32_bytes (w : Z) : wf_bytes (be32 w).
Proof.
  unfold wf_bytes, be32. repeat constructor; apply land255_byte.
Qed.

Lemma output_length (s : state) : List.length (output s) = 20%nat.
Proof. reflexivity. Qed.

Lemma output_bytes (s : state) : wf_bytes (output s).
Proof.
  unfold wf_bytes, output. repeat (apply Forall_app; split); apply be32_bytes.
Qed.

(** A SHA-1 digest is 20 bytes, whatever the message. *)
Lemma sha1_length (msg : bytes) : List.length (sha1 msg) = 20%nat.
Proof. apply output_length. Qed.

Lemma sha1_bytes (msg : bytes) : wf_bytes (sha1 msg).
Proof. apply output_bytes. Qed.

Lemma hmac_sha1_length (key msg : bytes) :
  List.length (hmac_sha1 key msg) = 20%nat.
Proof. apply sha1_length. Qed.

Lemma hmac_sha1_bytes (key msg : bytes) : wf_bytes (hmac_sha1 key msg).
Proof. apply sha1_bytes. Qed.

Import Base64 Base64Facts.

Lemma b64url_char_not_pad (c : Z) : b64url_char c = true -> c <> BASE64_PAD.
Proof.
  unfold b64url_char, Str.is_upper, Str.is_lower, Str.is_digit, BASE64_PAD, chr.
  simpl. lia.
Qed.

(** Twenty bytes encode to 28 characters: 27 of the alphabet and one pad. *)
Lemma urlsafe_b64encode_20 (bs : bytes) :
  List.length bs = 20%nat -> wf_bytes bs ->
  List.length (urlsafe_b64encode bs) = 28%nat
  /\ nth 27 (urlsafe_b64encode bs) 0 = BASE64_PAD
  /\ nth 26 (urlsafe_b64encode bs) 0 <> BASE64_PAD.
Proof.
  intros Hlen Hwf.
  pose proof (urlsafe_b64encode_chars _ bs (le_n _) Hwf) as Hch.
  do 20 (destruct bs as [|? bs]; [discriminate Hlen|]).
  destruct bs; [|discriminate Hlen].
  split; [reflexivity|]. split; [reflexivity|].
  apply b64url_char_not_pad.
  unfold urlsafe_b64encode. cbn [b2a_base64 map nth].
  unfold wf_bytes in Hwf. rewrite Forall_forall in Hwf.
  match goal with
  | |- context [Z.land ?x 15] =>
      assert (Hb : is_byte x) by (apply Hwf; simpl; tauto);
      pose proof (e_range x x Hb Hb) as [_ [_ [_ [_ [_ R3]]]]]
  end.
  exact (enc_char _ R3).
Qed.

End DigestFacts.

(** ** Query strings *)

Module UrllibFacts.
Import Str Urllib.

(** The query has no field: it is empty or made of '&' only. *)
Definition only_ampersands (q : str) : bool :=
  forallb (fun x => x =? chr "&") q.

Definition is_empty (s : str) : bool :=
  match s with [] => true | _ :: _ => false end.

Section Unquote.
Variable unquote : str -> str.

Lemma parse_field_empty (name_value : str) :
  is_empty name_value = true -> parse_field unquote true name_value = [].
Proof. destruct name_value; [reflexivity | discriminate]. Qed.

Lemma parse_field_one (name_value : str) :
  is_empty name_value = false ->
  exists n v, parse_field unquote true name_value = [(n, v)].
Proof.
  destruct name_value as [|c s]; [discriminate|]. intros _.
  unfold parse_field.
  destruct (break_at (chr "=") (c :: s)) as [[n v]|];
    rewrite orb_true_r; eauto.
Qed.

Lemma split_empty_pieces (c : Z) (s : str) :
  forallb is_empty (split c s) = forallb (fun x => x =? c) s.
Proof.
  induction s as [|x s IH]; [reflexivity|].
  cbn [split forallb]. destruct (x =? c).
  - cbn [forallb is_empty andb]. exact IH.
  - destruct (split c s); reflexivity.
Qed.

Definition no_pairs (l : list (str * str)) : bool :=
  match l with [] => true | _ :: _ => false end.

Lemma flat_map_fields (fields : list str) :
  no_pairs (flat_map (parse_field unquote true) fields)
  = forallb is_empty fields.
Proof.
  induction fields as [|f fields IH]; [reflexivity|].
  cbn [flat_map forallb]. destruct (is_empty f) eqn:Hf.
  - rewrite (parse_field_empty f Hf). exact IH.
  - destruct (parse_field_one f Hf) as [n [v Hp]]. rewrite Hp. reflexivity.
Qed.

Lemma parse_qsl_no_pairs (q : str) :
  no_pairs (parse_qsl unquote q true) = only_ampersands q.
Proof.
  unfold parse_qsl, only_ampersands. rewrite flat_map_fields.
  destruct q as [|c s]; [reflexivity|]. apply split_empty_pieces.
Qed.

Lemma dict_add_truthy (d : dict) (name value : str) :
  truthy (dict_add d name value) = true.
Proof.
  destruct d as [|[k vs] d]; [reflexivity|].
  cbn [dict_add]. destruct (Str.eqb k name); reflexivity.
Qed.

Lemma fold_dict_add_truthy (pairs : list (str * str)) (d : dict) :
  truthy d = true ->
  truthy (fold_left (fun d nv => dict_add d (fst nv) (snd nv)) pairs d) = true.
Proof.
  revert d. induction pairs as [|p pairs IH]; intros d Hd; [exact Hd|].
  cbn [fold_left]. apply IH, dict_add_truthy.
Qed.

(** [parse_qs] with [keep_blank_values=True] gives an empty [dict]
    exactly for a query without a field. *)
Lemma truthy_parse_qs (q : str) :
  truthy (parse_qs unquote q true) = negb (only_ampersands q).
Proof.
  rewrite <- parse_qsl_no_pairs. unfold parse_qs.
  destruct (parse_qsl unquote q true) as [|p pairs]; [reflexivity|].
  cbn [fold_left no_pairs negb]. apply fold_dict_add_truthy, dict_add_truthy.
Qed.

End Unquote.

Section Split.
Variable NFKC : str -> str.
Variable ip_address : str -> ip_kind.

Lemma bind_value_error {A B} (r : result A) (k : A -> result B) (e : exn) :
  (forall e', r = Raise e' -> exists msg, e' = ValueError msg) ->
  (forall a e', k a = Raise e' -> exists msg, e' = ValueError msg) ->
  bind r k = Raise e -> exists msg, e = ValueError msg.
Proof.
  intros Hr Hk. destruct r as [a|e']; cbn [bind]; intros H.
  - exact (Hk a e H).
  - injection H as <-. apply Hr. reflexivity.
Qed.

Lemma _check_bracketed_host_raises (h : str) (e : exn) :
  _check_bracketed_host ip_address h = Raise e -> exists msg, e = ValueError msg.
Proof.
  unfold _check_bracketed_host.
  destruct (startswith (lit "v") h); [destruct (ipvfuture_match h)|
    destruct (ip_address h)]; intros H; try discriminate;
    injection H as <-; eauto.
Qed.

Lemma _check_bracketed_netloc_raises (n : str) (e : exn) :
  _check_bracketed_netloc ip_address n = Raise e -> exists msg, e = ValueError msg.
Proof.
  unfold _check_bracketed_netloc.
  destruct (break_at (chr "[") (after_last (chr "@") n)) as [[before bracketed]|].
  - destruct before.
    + destruct (match break_at (chr "]") bracketed with
                | Some hp => hp | None => (bracketed, []) end) as [hostname port].
      destruct port as [|c port].
      * apply _check_bracketed_host_raises.
      * destruct (c =? chr ":"); [apply _check_bracketed_host_raises|].
        intros H; injection H as <-; eauto.
    + intros H; injection H as <-; eauto.
  - apply _check_bracketed_host_raises.
Qed.

Lemma _checknetloc_raises (n : str) (e : exn) :
  _checknetloc NFKC n = Raise e -> exists msg, e = ValueError msg.
Proof.
  unfold _checknetloc. destruct n as [|c n]; [discriminate|].
  destruct (forallb isascii (c :: n)); [discriminate|].
  match goal with |- context [Str.eqb ?a ?b] => destruct (Str.eqb a b) end;
    [discriminate|].
  match goal with |- context [existsb ?f ?l] => destruct (existsb f l) end;
    [|discriminate].
  intros H; injection H as <-; eauto.
Qed.

(** Whatever [urlsplit] raises is a [ValueError]. *)
Lemma urlsplit_raises (url : str) (e : exn) :
  urlsplit NFKC ip_address url = Raise e -> exists msg, e = ValueError msg.
Proof.
  unfold urlsplit.
  destruct (split_scheme _) as [scheme rest].
  apply bind_value_error.
  - intros e'. destruct (startswith (lit "//") rest); [|discriminate].
    destruct (_splitnetloc rest) as [netloc rest'].
    match goal with |- context [if ?c then Raise _ else _] => destruct c end.
    + intros H; injection H as <-; eauto.
    + apply bind_value_error.
      * intros e''. destruct (_ && _); [|discriminate].
        apply _check_bracketed_netloc_raises.
      * intros; discriminate.
  - intros [netloc rest'] e'.
    destruct (match break_at (chr "#") rest' with
              | Some uf => uf | None => (rest', []) end) as [u fragment].
    destruct (match break_at (chr "?") u with
              | Some uq => uq | None => (u, []) end) as [p query].
    apply bind_value_error.
    + intros e''. apply _checknetloc_raises.
    + intros; discriminate.
Qed.

End Split.
End UrllibFacts.

(** ** Encoding text *)

Module CodecFacts.
Import Codec.
Local Open Scope py_scope.






End CodecFacts.

(** ** The lenient decoder *)

Module DecodeFacts.
Import Base64.
Local Open Scope py_scope.

(** The characters [a2b_base64] reads: those of the alphabet, and the pad.
    Every other character is passed over. *)
Definition data_char (c : Z) : bool := table_a2b_base64 c <? 64.
Definition significant (c : Z) : bool := (c =? BASE64_PAD) || data_char c.

Lemma a2b_loop_skips (data : bytes) :
  forall quad_pos lc p,
    a2b_loop data quad_pos lc p = a2b_loop (filter significant data) quad_pos lc p.
Proof.
  induction data as [|c data IH]; intros quad_pos lc p; [reflexivity|].
  cbn [filter]. unfold significant at 1, data_char.
  destruct (c =? BASE64_PAD) eqn:Hpad.
  - cbn [orb a2b_loop]. rewrite Hpad.
    destruct (2 <=? quad_pos); [destruct (4 <=? quad_pos + (p + 1))|];
      try reflexivity; apply IH.
  - cbn [orb]. destruct (table_a2b_base64 c <? 64) eqn:Hc.
    + cbn [a2b_loop]. rewrite Hpad. cbv zeta.
      replace (64 <=? table_a2b_base64 c) with false
        by (symmetry; apply Z.leb_gt; apply Z.ltb_lt; exact Hc).
      repeat rewrite IH. reflexivity.
    + cbn [a2b_loop]. rewrite Hpad. cbv zeta.
      replace (64 <=? table_a2b_base64 c) with true
        by (symmetry; apply Z.leb_le; apply Z.ltb_ge; exact Hc).
      apply IH.
Qed.

Lemma is_ok_bind_cons (r : result bytes) (b : Z) :
  is_ok (tail <- r ;; Ok (b :: tail)) = is_ok r.
Proof. destruct r; reflexivity. Qed.

(** Without a pad, the data decode exactly when the alphabet characters
    fill whole quads. *)
Lemma a2b_loop_unpadded (data : bytes) :
  forallb data_char data = true ->
  forall quad_pos lc p, 0 <= quad_pos < 4 ->
    is_ok (a2b_loop data quad_pos lc p)
    = ((quad_pos + Z.of_nat (List.length data)) mod 4 =? 0).
Proof.
  induction data as [|c data IH]; intros Hdata quad_pos lc p Hq.
  - cbn [a2b_loop List.length Z.of_nat]. rewrite Z.add_0_r.
    rewrite Z.mod_small by lia.
    destruct (quad_pos =? 0) eqn:H0; [reflexivity|].
    destruct (quad_pos =? 1); reflexivity.
  - cbn [forallb] in Hdata. apply andb_true_iff in Hdata.
    destruct Hdata as [Hc Hdata]. unfold data_char in Hc.
    assert (Hpad : (c =? BASE64_PAD) = false).
    { destruct (c =? BASE64_PAD) eqn:E; [|reflexivity].
      apply Z.eqb_eq in E. subst c. discriminate Hc. }
    cbn [a2b_loop List.length]. rewrite Hpad. cbv zeta.
    replace (64 <=? table_a2b_base64 c) with false
      by (symmetry; apply Z.leb_gt; apply Z.ltb_lt; exact Hc).
    rewrite Nat2Z.inj_succ.
    assert (Hcase : quad_pos = 0 \/ quad_pos = 1 \/ quad_pos = 2 \/ quad_pos = 3)
      by lia.
    destruct Hcase as [-> | [-> | [-> | ->]]]; cbn [Z.eqb Pos.eqb];
      try rewrite is_ok_bind_cons; rewrite (IH Hdata) by lia.
    + f_equal. f_equal. lia.
    + f_equal. f_equal. lia.
    + f_equal. f_equal. lia.
    + replace (3 + Z.succ (Z.of_nat (List.length data)))
        with (0 + Z.of_nat (List.length data) + 1 * 4) by lia.
      rewrite Z.mod_add by lia. reflexivity.
Qed.

(** The characters [urlsafe_b64decode] reads: '-' and '_' too. *)
Definition urlsafe_significant (c : Z) : bool :=
  significant (_urlsafe_decode_translation c).

Lemma filter_map_translation (f : Z -> bool) (g : Z -> Z) (l : list Z) :
  filter f (map g l) = map g (filter (fun c => f (g c)) l).
Proof.
  induction l as [|c l IH]; [reflexivity|].
  cbn [map filter]. destruct (f (g c)); cbn [map]; rewrite IH; reflexivity.
Qed.

Lemma forallb_filter (f g : Z -> bool) (l : list Z) :
  forallb f l = true -> forallb f (filter g l) = true.
Proof.
  rewrite !forallb_forall. intros H c Hc. apply H.
  apply filter_In in Hc. apply Hc.
Qed.

(** ASCII characters outside the alphabet do not change what
    [urlsafe_b64decode] returns or raises. *)
Lemma urlsafe_b64decode_skips (s : str) :
  forallb Str.isascii s = true ->
  urlsafe_b64decode s = urlsafe_b64decode (filter urlsafe_significant s).
Proof.
  intros Hascii. unfold urlsafe_b64decode, _bytes_from_decode_data.
  rewrite Hascii, (forallb_filter _ urlsafe_significant _ Hascii).
  cbn [bind]. unfold a2b_base64.
  rewrite a2b_loop_skips, filter_map_translation. reflexivity.
Qed.

(** What [urlsafe_b64decode] raises. *)
Lemma a2b_loop_raises (data : bytes) :
  forall quad_pos lc p e,
    a2b_loop data quad_pos lc p = Raise e -> exists msg, e = binascii_Error msg.
Proof.
  induction data as [|c data IH]; intros quad_pos lc p e; cbn [a2b_loop].
  - destruct (quad_pos =? 0); [discriminate|].
    destruct (quad_pos =? 1); intros H; injection H as <-; eauto.
  - cbv zeta.
    destruct (c =? BASE64_PAD).
    + destruct (2 <=? quad_pos); [destruct (4 <=? quad_pos + (p + 1))|];
        try discriminate; apply IH.
    + destruct (64 <=? table_a2b_base64 c); [apply IH|].
      destruct (quad_pos =? 0); [apply IH|].
      destruct (quad_pos =? 1); [|destruct (quad_pos =? 2)];
        match goal with
        | |- context [a2b_loop data ?q ?l ?z] =>
            destruct (a2b_loop data q l z) eqn:E;
            cbn [bind]; [discriminate | intros H; injection H as <-; eapply IH, E]
        end.
Qed.

Lemma urlsafe_b64decode_raises (s : str) (e : exn) :
  urlsafe_b64decode s = Raise e ->
  (forallb Str.isascii s = false
   /\ e = ValueError "string argument should contain only ASCII characters")
  \/ (forallb Str.isascii s = true /\ exists msg, e = binascii_Error msg).
Proof.
  unfold urlsafe_b64decode, _bytes_from_decode_data.
  destruct (forallb Str.isascii s); cbn [bind].
  - intros H. right. split; [reflexivity|]. eapply a2b_loop_raises, H.
  - intros H. injection H as <-. left. split; reflexivity.
Qed.

End DecodeFacts.

(** ** Seconds since the epoch *)

Module DatetimeFacts.
Import Datetime.

(** The carries of the constructor keep the length of the interval. *)
Lemma total_microseconds_mk (d s us : Z) :
  total_microseconds (mk_timedelta d s us) = (d * 86400 + s) * 1000000 + us.
Proof.
  unfold total_microseconds, mk_timedelta. cbn [days seconds microseconds].
  pose proof (Z.div_mod us 1000000 ltac:(lia)) as H1.
  pose proof (Z.div_mod (s + us / 1000000) 86400 ltac:(lia)) as H2.
  lia.
Qed.

Lemma round_half_even_near (num den : Z) :
  0 <= num -> 0 < den ->
  2 * num - den <= 2 * (den * round_half_even num den) <= 2 * num + den.
Proof.
  intros Hn Hd. unfold round_half_even.
  pose proof (Z.div_mod num den ltac:(lia)) as Hqr.
  pose proof (Z.mod_pos_bound num den Hd) as Hr.
  set (q := num / den) in *. set (r := num mod den) in *.
  destruct (2 * r <? den) eqn:H1; [apply Z.ltb_lt in H1; lia|].
  apply Z.ltb_ge in H1.
  destruct (den <? 2 * r) eqn:H2; [apply Z.ltb_lt in H2; lia|].
  apply Z.ltb_ge in H2.
  destruct (Z.even q); lia.
Qed.

(** Below 2^34 seconds the float quotient has a fraction fine enough for
    [int] to give the whole seconds. *)
Lemma int_true_divide_floor (n : Z) :
  0 <= n < 2 ^ 34 * 1000000 ->
  int_of_float (true_divide n 1000000) = n / 1000000.
Proof.
  intros Hn. unfold true_divide.
  destruct (n =? 0) eqn:H0.
  - apply Z.eqb_eq in H0. subst n. reflexivity.
  - apply Z.eqb_neq in H0. assert (Hpos : 0 < n) by lia.
    rewrite Z.abs_eq by lia. rewrite Z.sgn_pos by lia.
    change (Z.log2 1000000) with 19.
    set (d := Z.log2 n - 19).
    assert (Hlog : Z.log2 n < 54).
    { apply Z.log2_lt_pow2; [exact Hpos|]. change (2 ^ 54) with 18014398509481984.
      change (2 ^ 34) with 17179869184 in Hn. lia. }
    set (at_least := if 0 <=? d then 1000000 * 2 ^ d <=? n
                     else 1000000 <=? n * 2 ^ (- d)).
    assert (He0 : (if at_least then d else d - 1) <= 33).
    { destruct (Z.eq_dec d 34) as [E | E].
      - assert (Hal : at_least = false).
        { unfold at_least. rewrite E. cbn [Z.leb Z.compare].
          apply Z.leb_gt. lia. }
        rewrite Hal. lia.
      - destruct at_least; unfold d in *; lia. }
    set (e0 := if at_least then d else d - 1) in *.
    cbv zeta. unfold int_of_float. cbn [mant expo].
    assert (Hneg : (0 <=? e0 - 52) = false) by (apply Z.leb_gt; lia).
    rewrite Hneg.
    set (k := - (e0 - 52)).
    assert (Hk : 19 <= k) by (unfold k; lia).
    assert (HK : 524288 <= 2 ^ k).
    { change 524288 with (2 ^ 19). apply Z.pow_le_mono_r; lia. }
    set (K := 2 ^ k) in *.
    pose proof (round_half_even_near (n * K) 1000000 ltac:(nia) ltac:(lia)) as Hm.
    set (m := round_half_even (n * K) 1000000) in *.
    pose proof (Z.div_mod n 1000000 ltac:(lia)) as Hqr.
    pose proof (Z.mod_pos_bound n 1000000 ltac:(lia)) as Hr.
    set (q := n / 1000000) in *. set (r := n mod 1000000) in *.
    assert (Hq : 0 <= q) by (unfold q; apply Z.div_pos; lia).
    assert (HnK : n * K = 1000000 * (q * K) + r * K) by (rewrite Hqr; ring).
    assert (HrK : 0 <= r * K <= 999999 * K) by nia.
    assert (HqK : 0 <= q * K) by nia.
    rewrite Z.mul_1_l.
    assert (Hlo : q * K <= m) by lia.
    assert (Hhi : m < (q + 1) * K) by lia.
    rewrite Z.quot_div_nonneg by lia.
    symmetry. apply Z.div_unique with (r := m - q * K); lia.
Qed.

(** For a [timedelta] from zero up to 2^34 seconds,
    [int(td.total_seconds())] is the floor of its length in seconds. *)
Lemma int_total_seconds_floor (td : timedelta) :
  0 <= total_microseconds td < 2 ^ 34 * 1000000 ->
  int_of_float (total_seconds td) = total_microseconds td / 1000000.
Proof. apply int_true_divide_floor. Qed.

(** The epoch of [sign_url] is what [utcfromtimestamp] makes of zero. *)
Lemma utcfromtimestamp_zero :
  utcfromtimestamp {| mant := 0; expo := 0 |} = Ok utcfromtimestamp_0.
Proof. reflexivity. Qed.

End DatetimeFacts.

(** ** The signer *)

Module SignerFacts.
Import Str Snippets StrFacts UrllibFacts.

(** The canonical string of a request, the text the HMAC is computed
    over: [<stripped_url><separator>Expires=<seconds>&KeyName=<keyName>]. *)
Definition canonical_string (stripped_url separator : str) (expires : Z)
           (key_name : str) : str :=
  stripped_url ++ separator ++ lit "Expires=" ++ of_int expires
  ++ lit "&KeyName=" ++ key_name.

(** The world after [text] and a newline were printed. *)
Definition printed (w : World) (text : str) : World :=
  {| stdout := stdout w ++ text ++ [10]; clock := clock w; entropy := entropy w |}.

Section Signer.
Variable NFKC : str -> str.
Variable ip_address : str -> Urllib.ip_kind.
Variable unquote : str -> str.

Local Abbreviation sign_url := (Snippets.sign_url NFKC ip_address unquote).
Local Abbreviation urlsplit := (Urllib.urlsplit NFKC ip_address).
Local Abbreviation parse_qs := (Urllib.parse_qs unquote).

(** The separator [sign_url] picks for a parsed URL. *)
Definition separator (parsed_url : Urllib.SplitResult) : str :=
  if Urllib.truthy (parse_qs (Urllib.query parsed_url) true)
  then lit "&" else lit "?".

(** [sign_url], step by step: the first call that raises ends it, with
    nothing printed; otherwise the signed URL is printed. *)
Lemma sign_url_eq (url key_name base64_key : str)
      (expiration_time : Datetime.datetime) (w : World) :
  sign_url url key_name base64_key expiration_time w =
    match urlsplit (strip url) with
    | Raise e => (Raise e, w)
    | Ok parsed_url =>
        match Datetime.sub expiration_time Datetime.utcfromtimestamp_0 with
        | Raise e => (Raise e, w)
        | Ok delta =>
            match Base64.urlsafe_b64decode base64_key with
            | Raise e => (Raise e, w)
            | Ok decoded_key =>
                let url_to_sign :=
                  canonical_string (strip url) (separator parsed_url)
                    (Datetime.int_of_float (Datetime.total_seconds delta))
                    key_name in
                match Codec.encode_utf8 url_to_sign with
                | Raise e => (Raise e, w)
                | Ok message =>
                    (Ok tt,
                     printed w
                       (url_to_sign ++ lit "&Signature="
                        ++ Base64.urlsafe_b64encode
                             (Hmac.hmac_sha1 decoded_key message)))
                end
            end
        end
    end.
Proof.
  unfold Snippets.sign_url, bindM, lift, print, printed, separator,
    canonical_string, Codec.decode_utf8_ascii.
  destruct (urlsplit (strip url)); [|reflexivity].
  destruct (Datetime.sub expiration_time Datetime.utcfromtimestamp_0);
    [|reflexivity].
  destruct (Base64.urlsafe_b64decode base64_key); [|reflexivity].
  cbv zeta.
  match goal with
  | |- match ?x with Ok _ => _ | Raise _ => _ end
       = match ?y with Ok _ => _ | Raise _ => _ end =>
      change y with x; destruct x; reflexivity
  end.
Qed.

(** What a successful call went through. *)
Lemma sign_url_ok_inv (url key_name base64_key : str)
      (expiration_time : Datetime.datetime) (w w' : World) :
  sign_url url key_name base64_key expiration_time w = (Ok tt, w') ->
  exists parsed_url delta decoded_key message,
    urlsplit (strip url) = Ok parsed_url
    /\ Datetime.sub expiration_time Datetime.utcfromtimestamp_0 = Ok delta
    /\ Base64.urlsafe_b64decode base64_key = Ok decoded_key
    /\ Codec.encode_utf8
         (canonical_string (strip url) (separator parsed_url)
            (Datetime.int_of_float (Datetime.total_seconds delta)) key_name)
       = Ok message
    /\ w' = printed w
              (canonical_string (strip url) (separator parsed_url)
                 (Datetime.int_of_float (Datetime.total_seconds delta))
                 key_name
               ++ lit "&Signature="
               ++ Base64.urlsafe_b64encode (Hmac.hmac_sha1 decoded_key message)).
Proof.
  rewrite sign_url_eq.
  destruct (urlsplit (strip url)) as [parsed_url|]; [|discriminate].
  destruct (Datetime.sub expiration_time Datetime.utcfromtimestamp_0)
    as [delta|]; [|discriminate].
  destruct (Base64.urlsafe_b64decode base64_key) as [decoded_key|];
    [|discriminate].
  cbv zeta.
  match goal with |- context [Codec.encode_utf8 ?s] =>
    destruct (Codec.encode_utf8 s) as [message|] eqn:Hm end; [|discriminate].
  intros H. injection H as <-.
  exists parsed_url, delta, decoded_key, message. repeat split; assumption.
Qed.

Lemma separator_cases (parsed_url : Urllib.SplitResult) :
  separator parsed_url = lit "&" \/ separator parsed_url = lit "?".
Proof.
  unfold separator. destruct (Urllib.truthy _); [left | right]; reflexivity.
Qed.

Lemma stdout_printed (w : World) (text : str) :
  stdout (printed w text) = stdout w ++ text ++ [10].
Proof. reflexivity. Qed.


Lemma separator_only_ampersands (parsed_url : Urllib.SplitResult) :
  separator parsed_url =
    if only_ampersands (Urllib.query parsed_url) then lit "?" else lit "&".
Proof.
  unfold separator. rewrite truthy_parse_qs.
  destruct (only_ampersands (Urllib.query parsed_url)); reflexivity.
Qed.

Lemma printed_frame (w : World) (text : str) :
  clock (printed w text) = clock w /\ entropy (printed w text) = entropy w.
Proof. split; reflexivity. Qed.

(** C1: a call that succeeds prints
    [<stripped_url><separator>Expires=<seconds>&KeyName=<keyName>&Signature=<encoded_digest>],
    where the stripped URL is the URL without the whitespace at its two ends,
    the separator is '&' or '?', the seconds come from the expiration time and
    the digest is the URL-safe base64 text of the HMAC-SHA1 of the canonical
    string: the three parameters close the output in that order. *)
Theorem sign_url_canonical_output (url key_name base64_key : str)
        (expiration_time : Datetime.datetime) (w w' : World) :
  sign_url url key_name base64_key expiration_time w = (Ok tt, w') ->
  exists pre post sep expiration_seconds encoded_digest delta decoded_key message,
    url = pre ++ strip url ++ post
    /\ forallb isspace pre = true /\ forallb isspace post = true
    /\ not_space (first_char (strip url)) /\ not_space (last_char (strip url))
    /\ (sep = lit "&" \/ sep = lit "?")
    /\ Datetime.sub expiration_time Datetime.utcfromtimestamp_0 = Ok delta
    /\ expiration_seconds = Datetime.int_of_float (Datetime.total_seconds delta)
    /\ Base64.urlsafe_b64decode base64_key = Ok decoded_key
    /\ Codec.encode_utf8
         (canonical_string (strip url) sep expiration_seconds key_name) = Ok message
    /\ encoded_digest = Base64.urlsafe_b64encode (Hmac.hmac_sha1 decoded_key message)
    /\ stdout w' =
         stdout w
         ++ (canonical_string (strip url) sep expiration_seconds key_name
             ++ lit "&Signature=" ++ encoded_digest)
         ++ [10].
Proof.
  intros H.
  destruct (sign_url_ok_inv _ _ _ _ _ _ H)
    as (parsed_url & delta & decoded_key & message & _ & Hd & Hk & Hm & ->).
  destruct (strip_spec url) as (pre & post & Hurl & Hpre & Hpost & Hfirst & Hlast).
  exists pre, post, (separator parsed_url),
    (Datetime.int_of_float (Datetime.total_seconds delta)),
    (Base64.urlsafe_b64encode (Hmac.hmac_sha1 decoded_key message)),
    delta, decoded_key, message.
  repeat split; try assumption; try reflexivity.
  apply separator_cases.
Qed.

(** C2: decoding the Signature parameter of a signed URL as URL-safe base64
    gives the HMAC-SHA1, under the decoded key, of the UTF-8 bytes of the
    canonical string that precedes it. *)
Theorem sign_url_signature_roundtrip (url key_name base64_key : str)
        (expiration_time : Datetime.datetime) (w w' : World) :
  sign_url url key_name base64_key expiration_time w = (Ok tt, w') ->
  exists canonical signature decoded_key message,
    stdout w' = stdout w ++ (canonical ++ lit "&Signature=" ++ signature) ++ [10]
    /\ (exists sep n, canonical = canonical_string (strip url) sep n key_name)
    /\ Base64.urlsafe_b64decode base64_key = Ok decoded_key
    /\ Codec.encode_utf8 canonical = Ok message
    /\ Base64.urlsafe_b64decode signature = Ok (Hmac.hmac_sha1 decoded_key message).
Proof.
  intros H.
  destruct (sign_url_ok_inv _ _ _ _ _ _ H)
    as (parsed_url & delta & decoded_key & message & _ & _ & Hk & Hm & ->).
  eexists _, (Base64.urlsafe_b64encode (Hmac.hmac_sha1 decoded_key message)),
    decoded_key, message.
  split; [reflexivity|]. split; [eexists _, _; reflexivity|].
  split; [exact Hk|]. split; [exact Hm|].
  apply (Base64Facts.urlsafe_b64_roundtrip _ (DigestFacts.hmac_sha1_bytes _ _)).
Qed.

(** C3, as the code has it: the separator before Expires is '?' when the
    query of the stripped URL has no field, that is when it is empty or made
    of '&' only, and '&' otherwise. *)
Theorem sign_url_separator (url key_name base64_key : str)
        (expiration_time : Datetime.datetime) (w w' : World) :
  sign_url url key_name base64_key expiration_time w = (Ok tt, w') ->
  exists parsed_url rest,
    urlsplit (strip url) = Ok parsed_url
    /\ stdout w' =
         stdout w ++ strip url
         ++ (if only_ampersands (Urllib.query parsed_url) then lit "?" else lit "&")
         ++ lit "Expires=" ++ rest.
Proof.
  intros H.
  destruct (sign_url_ok_inv _ _ _ _ _ _ H)
    as (parsed_url & delta & decoded_key & message & Hu & _ & _ & _ & ->).
  exists parsed_url. eexists. split; [exact Hu|].
  rewrite stdout_printed. unfold canonical_string.
  rewrite separator_only_ampersands. repeat rewrite <- app_assoc. reflexivity.
Qed.

(** C4, as the code has it: when [urlsafe_b64decode] rejects the key,
    [sign_url] raises that error and prints nothing, whatever the key name
    is (so before the message is encoded and the HMAC computed), once the
    URL has been split and the times subtracted.  The decoder rejects a
    string that is not ASCII ([ValueError]) and data that are incorrectly
    padded ([binascii.Error]); ASCII characters outside the alphabet are not
    a reason: without them the key is rejected just the same. *)
Theorem sign_url_key_decode_error (url key_name base64_key : str)
        (expiration_time : Datetime.datetime) (w : World)
        (parsed_url : Urllib.SplitResult) (delta : Datetime.timedelta) (e : exn) :
  urlsplit (strip url) = Ok parsed_url ->
  Datetime.sub expiration_time Datetime.utcfromtimestamp_0 = Ok delta ->
  Base64.urlsafe_b64decode base64_key = Raise e ->
  sign_url url key_name base64_key expiration_time w = (Raise e, w)
  /\ ((forallb isascii base64_key = false
       /\ e = ValueError "string argument should contain only ASCII characters")
      \/ (forallb isascii base64_key = true
          /\ (exists msg, e = binascii_Error msg)
          /\ Base64.urlsafe_b64decode
               (filter DecodeFacts.urlsafe_significant base64_key) = Raise e)).
Proof.
  intros Hu Hd Hk. split.
  - rewrite sign_url_eq, Hu, Hd, Hk. reflexivity.
  - destruct (DecodeFacts.urlsafe_b64decode_raises _ _ Hk) as [[Ha He] | [Ha He]].
    + left. split; assumption.
    + right. split; [exact Ha|]. split; [exact He|].
      rewrite <- (DecodeFacts.urlsafe_b64decode_skips _ Ha). exact Hk.
Qed.

(** C6: the outcome of a call and the text it prints are functions of the
    four arguments alone: the same in every world, whatever its clock, its
    entropy and the output so far. *)
Theorem sign_url_deterministic (url key_name base64_key : str)
        (expiration_time : Datetime.datetime) :
  exists (outcome : result unit) (text : str),
    forall w : World,
      sign_url url key_name base64_key expiration_time w =
        (outcome, {| stdout := stdout w ++ text;
                     clock := clock w; entropy := entropy w |}).
Proof.
  assert (Hsame : forall w : World,
            w = {| stdout := stdout w ++ []; clock := clock w; entropy := entropy w |}).
  { intros [o c en]. cbn. rewrite app_nil_r. reflexivity. }
  destruct (urlsplit (strip url)) as [parsed_url|e] eqn:Hu.
  2:{ exists (Raise e), []. intros w. rewrite sign_url_eq, Hu. f_equal. apply Hsame. }
  destruct (Datetime.sub expiration_time Datetime.utcfromtimestamp_0)
    as [delta|e] eqn:Hd.
  2:{ exists (Raise e), []. intros w. rewrite sign_url_eq, Hu, Hd. f_equal. apply Hsame. }
  destruct (Base64.urlsafe_b64decode base64_key) as [decoded_key|e] eqn:Hk.
  2:{ exists (Raise e), []. intros w. rewrite sign_url_eq, Hu, Hd, Hk.
      f_equal. apply Hsame. }
  destruct (Codec.encode_utf8
              (canonical_string (strip url) (separator parsed_url)
                 (Datetime.int_of_float (Datetime.total_seconds delta)) key_name))
    as [message|e] eqn:Hm.
  2:{ exists (Raise e), []. intros w. rewrite sign_url_eq, Hu, Hd, Hk. cbv zeta.
      rewrite Hm. f_equal. apply Hsame. }
  eexists (Ok tt), _. intros w. rewrite sign_url_eq, Hu, Hd, Hk. cbv zeta.
  rewrite Hm. unfold printed. reflexivity.
Qed.


(** C8: when the stripped URL cannot be split, [urlsplit] raises a
    [ValueError] and [sign_url] ends with that very error: nothing caught,
    nothing retried, nothing printed. *)
Theorem sign_url_url_error_propagates (url key_name base64_key : str)
        (expiration_time : Datetime.datetime) (w : World) (e : exn) :
  urlsplit (strip url) = Raise e ->
  sign_url url key_name base64_key expiration_time w = (Raise e, w)
  /\ exists msg, e = ValueError msg.
Proof.
  intros Hu. split.
  - rewrite sign_url_eq, Hu. reflexivity.
  - exact (urlsplit_raises _ _ _ _ Hu).
Qed.

(** C9: the Signature value of a signed URL has 28 characters, of the
    URL-safe alphabet but for the last one, the single pad. *)
Theorem sign_url_signature_length (url key_name base64_key : str)
        (expiration_time : Datetime.datetime) (w w' : World) :
  sign_url url key_name base64_key expiration_time w = (Ok tt, w') ->
  exists canonical signature,
    stdout w' = stdout w ++ (canonical ++ lit "&Signature=" ++ signature) ++ [10]
    /\ List.length signature = 28%nat
    /\ nth 27 signature 0 = chr "="
    /\ nth 26 signature 0 <> chr "="
    /\ forallb (fun c => Base64Facts.b64url_char c || (c =? chr "=")) signature = true.
Proof.
  intros H.
  destruct (sign_url_ok_inv _ _ _ _ _ _ H)
    as (parsed_url & delta & decoded_key & message & _ & _ & _ & _ & ->).
  eexists _, (Base64.urlsafe_b64encode (Hmac.hmac_sha1 decoded_key message)).
  split; [reflexivity|].
  pose proof (DigestFacts.hmac_sha1_length decoded_key message) as Hlen.
  pose proof (DigestFacts.hmac_sha1_bytes decoded_key message) as Hwf.
  destruct (DigestFacts.urlsafe_b64encode_20 _ Hlen Hwf) as (H28 & Hlast & Hprev).
  repeat split; try assumption.
  exact (Base64Facts.urlsafe_b64encode_chars _ _ (le_n _) Hwf).
Qed.



(** The whole seconds from the epoch to a naive datetime, and the datetime
    cut to its whole second. *)
Definition epoch_seconds (t : Datetime.datetime) : Z :=
  (Datetime.toordinal t - Datetime.toordinal Datetime.utcfromtimestamp_0) * 86400
  + (Datetime.second t + Datetime.minute t * 60 + Datetime.hour t * 3600).

Definition floor_second (t : Datetime.datetime) : Datetime.datetime :=
  {| Datetime.year := Datetime.year t; Datetime.month := Datetime.month t;
     Datetime.day := Datetime.day t; Datetime.hour := Datetime.hour t;
     Datetime.minute := Datetime.minute t; Datetime.second := Datetime.second t;
     Datetime.microsecond := 0; Datetime.utcoffset := Datetime.utcoffset t |}.

(** From the epoch up to 2^34 seconds after it (30 May 2514) the
    expiration timestamp of a naive datetime is its whole seconds: the
    microseconds are dropped. *)
Lemma expiration_timestamp_floor (t : Datetime.datetime) :
  Datetime.utcoffset t = None ->
  0 <= Datetime.microsecond t < 1000000 ->
  0 <= epoch_seconds t < 2 ^ 34 ->
  exists delta,
    Datetime.sub t Datetime.utcfromtimestamp_0 = Ok delta
    /\ Datetime.int_of_float (Datetime.total_seconds delta) = epoch_seconds t.
Proof.
  intros Hnaive Hus Hs. unfold Datetime.sub. rewrite Hnaive.
  cbn [Datetime.utcoffset Datetime.utcfromtimestamp_0].
  eexists. split; [reflexivity|].
  rewrite DatetimeFacts.int_total_seconds_floor;
    rewrite DatetimeFacts.total_microseconds_mk;
    cbn [Datetime.second Datetime.minute Datetime.hour Datetime.microsecond];
    unfold epoch_seconds in *;
    change (0 + 0 * 60 + 0 * 3600) with 0; rewrite Z.sub_0_r in *.
  - rewrite Z.sub_0_r.
    symmetry. apply Z.div_unique with (r := Datetime.microsecond t); lia.
  - rewrite Z.sub_0_r. lia.
Qed.

(** In that range [sign_url] does the same for an expiration time and for
    its whole second. *)
Lemma sign_url_truncates (url key_name base64_key : str)
      (expiration_time : Datetime.datetime) (w : World) :
  Datetime.utcoffset expiration_time = None ->
  0 <= Datetime.microsecond expiration_time < 1000000 ->
  0 <= epoch_seconds expiration_time < 2 ^ 34 ->
  sign_url url key_name base64_key expiration_time w =
  sign_url url key_name base64_key (floor_second expiration_time) w.
Proof.
  intros Hnaive Hus Hs.
  destruct (expiration_timestamp_floor expiration_time Hnaive Hus Hs)
    as (delta & Hd & Hint).
  destruct (expiration_timestamp_floor (floor_second expiration_time) Hnaive
              ltac:(cbn; lia) Hs) as (delta0 & Hd0 & Hint0).
  rewrite !sign_url_eq, Hd, Hd0, Hint, Hint0. reflexivity.
Qed.

End Signer.

(** ** Runs on concrete requests *)

Definition dog_url : str := lit "https://example.com/objects/dog.png".
Definition path_url : str := lit "https://example.com/path".
Definition my_key : str := lit "my-key".
Definition key_b64 : str := lit "nZtRohdNCWBsDuP5xDZ1Tg==".
(** 2038-01-19 03:14:07, that is 2147483647 seconds after the epoch. *)
Definition t_2038 : Datetime.datetime := naive 2038 1 19 3 14 7 0.
(** 2514-05-30 01:53:04.999999: 2^34 seconds and 999999 microseconds. *)
Definition t_2514 : Datetime.datetime := naive 2514 5 30 1 53 4 999999.

Definition dog_signed : str :=
  lit "https://example.com/objects/dog.png?Expires=2147483647&KeyName=my-key&Signature=3RIy6M_isvVup3XFL-gdlNXSL4Q=".


(** No query: '?' before Expires. *)
Lemma sign_url_path_no_query :
  sign_url_ex path_url my_key key_b64 t_2038 world0
  = (Ok tt, printed world0 (lit
      "https://example.com/path?Expires=2147483647&KeyName=my-key&Signature=0A1v5E6bXR17nA5UunCSLHHVZiA=")).
Proof. vm_compute. reflexivity. Qed.

(** A query with a field: '&' before Expires. *)
Lemma sign_url_path_query :
  sign_url_ex (lit "https://example.com/path?a=1") my_key key_b64 t_2038 world0
  = (Ok tt, printed world0 (lit
      "https://example.com/path?a=1&Expires=2147483647&KeyName=my-key&Signature=SGNDtA8Y-fnuMBK8Tq1QON-erGA=")).
Proof. vm_compute. reflexivity. Qed.

(** C5 fails in two places.  On the command line the argument 1.9999999
    becomes the datetime 1970-01-01 00:00:02, since [utcfromtimestamp]
    rounds to the nearest microsecond, and the URL expires at 2, not 1.  In
    [sign_url] the interval up to 2514-05-30 01:53:04.999999 is
    17179869184.999999 seconds long, its float is 17179869185.0, and the URL
    expires a second later than the one signed for the whole second. *)
Lemma expiration_not_truncated :
  expiration_time_type {| Datetime.digits := 19999999; Datetime.decimals := 7 |}
  = Ok (naive 1970 1 1 0 0 2 0)
  /\ sign_url_ex path_url my_key key_b64 (naive 1970 1 1 0 0 2 0) world0
     = (Ok tt, printed world0 (lit
         "https://example.com/path?Expires=2&KeyName=my-key&Signature=XferpptL7_n45Z5hc5akJX3YPu8="))
  /\ Datetime.valid t_2514
  /\ Datetime.sub t_2514 Datetime.utcfromtimestamp_0
     = Ok {| Datetime.days := 198841; Datetime.seconds := 6784;
             Datetime.microseconds := 999999 |}
  /\ epoch_seconds t_2514 = 17179869184
  /\ Datetime.total_seconds
       {| Datetime.days := 198841; Datetime.seconds := 6784;
          Datetime.microseconds := 999999 |}
     = {| Datetime.mant := 17179869185 * 2 ^ 18; Datetime.expo := -18 |}
  /\ sign_url_ex path_url my_key key_b64 t_2514 world0
     = (Ok tt, printed world0 (lit
         "https://example.com/path?Expires=17179869185&KeyName=my-key&Signature=CtJt9jxiwaygy-eJD874CI3Wn2g="))
  /\ sign_url_ex path_url my_key key_b64 (floor_second t_2514) world0
     = (Ok tt, printed world0 (lit
         "https://example.com/path?Expires=17179869184&KeyName=my-key&Signature=nLWgSahHx0R0MhP2qxOu5DkVvZY=")).
Proof.
  split; [vm_compute; reflexivity|]. split; [vm_compute; reflexivity|].
  split; [repeat split; vm_compute; (reflexivity || discriminate)|].
  do 4 (split; [vm_compute; reflexivity|]).
  vm_compute. reflexivity.
Qed.

(** C3 fails at a query made of '&': the query is not empty, and the
    separator is '?'. *)
Lemma sign_url_separator_ampersand_query :
  Urllib.urlsplit NFKC_ascii ip_address_loopback
    (strip (lit "https://example.com/path?&"))
  = Ok {| Urllib.scheme := lit "https"; Urllib.netloc := lit "example.com";
          Urllib.path := lit "/path"; Urllib.query := lit "&";
          Urllib.fragment := [] |}
  /\ sign_url_ex (lit "https://example.com/path?&") my_key key_b64 t_2038 world0
     = (Ok tt, printed world0 (lit
         "https://example.com/path?&?Expires=2147483647&KeyName=my-key&Signature=heAwK2nDlIPHyXI3UOCwlOTxcOQ=")).
Proof. split; vm_compute; reflexivity. Qed.

(** C4 fails at the key of the specification: its two '!' are passed over,
    the 16 characters left decode to 12 bytes, and the URL is signed. *)
Lemma not_valid_base64_accepted :
  Base64.urlsafe_b64decode (lit "not-valid-base64!!")
  = Ok [158; 139; 126; 189; 169; 98; 119; 230; 218; 177; 238; 184]
  /\ sign_url_ex path_url my_key (lit "not-valid-base64!!") t_2038 world0
     = (Ok tt, printed world0 (lit
         "https://example.com/path?Expires=2147483647&KeyName=my-key&Signature=9ZdCgoqGoiNxsgSNoelkCsrB7gw=")).
Proof. split; vm_compute; reflexivity. Qed.




(** ** The theorems at concrete requests *)

Definition spaced_dog_url : str := lit "  https://example.com/objects/dog.png ".
Definition path_parsed : Urllib.SplitResult :=
  {| Urllib.scheme := lit "https"; Urllib.netloc := lit "example.com";
     Urllib.path := lit "/path"; Urllib.query := []; Urllib.fragment := [] |}.
Definition delta_2038 : Datetime.timedelta :=
  {| Datetime.days := 24855; Datetime.seconds := 11647; Datetime.microseconds := 0 |}.

Lemma sign_url_canonical_output_witness :
  sign_url_ex spaced_dog_url my_key key_b64 t_2038 world0
  = (Ok tt, printed world0 dog_signed)
  /\ exists pre post sep expiration_seconds encoded_digest delta decoded_key message,
       spaced_dog_url = pre ++ strip spaced_dog_url ++ post
       /\ forallb isspace pre = true /\ forallb isspace post = true
       /\ not_space (first_char (strip spaced_dog_url))
       /\ not_space (last_char (strip spaced_dog_url))
       /\ (sep = lit "&" \/ sep = lit "?")
       /\ Datetime.sub t_2038 Datetime.utcfromtimestamp_0 = Ok delta
       /\ expiration_seconds = Datetime.int_of_float (Datetime.total_seconds delta)
       /\ Base64.urlsafe_b64decode key_b64 = Ok decoded_key
       /\ Codec.encode_utf8
            (canonical_string (strip spaced_dog_url) sep expiration_seconds my_key)
          = Ok message
       /\ encoded_digest
          = Base64.urlsafe_b64encode (Hmac.hmac_sha1 decoded_key message)
       /\ stdout (printed world0 dog_signed) =
            stdout world0
            ++ (canonical_string (strip spaced_dog_url) sep expiration_seconds my_key
                ++ lit "&Signature=" ++ encoded_digest)
            ++ [10].
Proof.
  split; [vm_compute; reflexivity|].
  apply (sign_url_canonical_output NFKC_ascii ip_address_loopback unquote_plain
           spaced_dog_url my_key key_b64 t_2038 world0 (printed world0 dog_signed)).
  vm_compute. reflexivity.
Defined.

Lemma sign_url_signature_roundtrip_witness :
  sign_url_ex dog_url my_key key_b64 t_2038 world0
  = (Ok tt, printed world0 dog_signed)
  /\ exists canonical signature decoded_key message,
       stdout (printed world0 dog_signed)
       = stdout world0 ++ (canonical ++ lit "&Signature=" ++ signature) ++ [10]
       /\ (exists sep n, canonical = canonical_string (strip dog_url) sep n my_key)
       /\ Base64.urlsafe_b64decode key_b64 = Ok decoded_key
       /\ Codec.encode_utf8 canonical = Ok message
       /\ Base64.urlsafe_b64decode signature
          = Ok (Hmac.hmac_sha1 decoded_key message).
Proof.
  split; [vm_compute; reflexivity|].
  apply (sign_url_signature_roundtrip NFKC_ascii ip_address_loopback unquote_plain
           dog_url my_key key_b64 t_2038 world0 (printed world0 dog_signed)).
  vm_compute. reflexivity.
Defined.

Definition query_signed : str :=
  lit "https://example.com/path?a=1&Expires=2147483647&KeyName=my-key&Signature=SGNDtA8Y-fnuMBK8Tq1QON-erGA=".

Lemma sign_url_separator_witness :
  sign_url_ex (lit "https://example.com/path?a=1") my_key key_b64 t_2038 world0
  = (Ok tt, printed world0 query_signed)
  /\ exists parsed_url rest,
       Urllib.urlsplit NFKC_ascii ip_address_loopback
         (strip (lit "https://example.com/path?a=1")) = Ok parsed_url
       /\ stdout (printed world0 query_signed) =
            stdout world0 ++ strip (lit "https://example.com/path?a=1")
            ++ (if only_ampersands (Urllib.query parsed_url)
                then lit "?" else lit "&")
            ++ lit "Expires=" ++ rest.
Proof.
  split; [vm_compute; reflexivity|].
  apply (sign_url_separator NFKC_ascii ip_address_loopback unquote_plain
           (lit "https://example.com/path?a=1") my_key key_b64 t_2038 world0
           (printed world0 query_signed)).
  vm_compute. reflexivity.
Defined.

(** The key of the scenario with one pad less: incorrectly padded. *)
Definition short_key : str := lit "nZtRohdNCWBsDuP5xDZ1Tg=".

Lemma sign_url_key_decode_error_witness :
  Urllib.urlsplit NFKC_ascii ip_address_loopback (strip path_url) = Ok path_parsed
  /\ Datetime.sub t_2038 Datetime.utcfromtimestamp_0 = Ok delta_2038
  /\ Base64.urlsafe_b64decode short_key = Raise (binascii_Error "Incorrect padding")
  /\ sign_url_ex path_url my_key short_key t_2038 world0
     = (Raise (binascii_Error "Incorrect padding"), world0)
  /\ ((forallb isascii short_key = false
       /\ binascii_Error "Incorrect padding"
          = ValueError "string argument should contain only ASCII characters")
      \/ (forallb isascii short_key = true
          /\ (exists msg, binascii_Error "Incorrect padding" = binascii_Error msg)
          /\ Base64.urlsafe_b64decode
               (filter DecodeFacts.urlsafe_significant short_key)
             = Raise (binascii_Error "Incorrect padding"))).
Proof.
  split; [vm_compute; reflexivity|].
  split; [vm_compute; reflexivity|].
  split; [vm_compute; reflexivity|].
  apply (sign_url_key_decode_error NFKC_ascii ip_address_loopback unquote_plain
           path_url my_key short_key t_2038 world0 path_parsed delta_2038);
    vm_compute; reflexivity.
Defined.

Lemma sign_url_url_error_propagates_witness :
  Urllib.urlsplit NFKC_ascii ip_address_loopback (strip (lit "http://[::1/x"))
  = Raise (ValueError "Invalid IPv6 URL")
  /\ sign_url_ex (lit "http://[::1/x") my_key key_b64 t_2038 world0
     = (Raise (ValueError "Invalid IPv6 URL"), world0)
  /\ exists msg, ValueError "Invalid IPv6 URL" = ValueError msg.
Proof.
  split; [vm_compute; reflexivity|].
  apply (sign_url_url_error_propagates NFKC_ascii ip_address_loopback unquote_plain
           (lit "http://[::1/x") my_key key_b64 t_2038 world0).
  vm_compute. reflexivity.
Defined.

Lemma sign_url_signature_length_witness :
  sign_url_ex dog_url my_key key_b64 t_2038 world0
  = (Ok tt, printed world0 dog_signed)
  /\ exists canonical signature,
       stdout (printed world0 dog_signed)
       = stdout world0 ++ (canonical ++ lit "&Signature=" ++ signature) ++ [10]
       /\ List.length signature = 28%nat
       /\ nth 27 signature 0 = chr "="
       /\ nth 26 signature 0 <> chr "="
       /\ forallb (fun c => Base64Facts.b64url_char c || (c =? chr "=")) signature
          = true.
Proof.
  split; [vm_compute; reflexivity|].
  apply (sign_url_signature_length NFKC_ascii ip_address_loopback unquote_plain
           dog_url my_key key_b64 t_2038 world0 (printed world0 dog_signed)).
  vm_compute. reflexivity.
Defined.


End SignerFacts.
